(** * Buffering adapters between a network connection and the TLS engine's BIO

    A shallow embedding of [bio.go]: the write adapter ([writeBio]), the read
    adapter ([readBio]), their cgo-exported callbacks and the unbuffered
    [anyBio] facade, followed by the properties the specification states
    about them.

    Conventions.
    - A Go [int] is a [Z]; it is a 64-bit machine integer in the program, and
      every [int] the adapters compute is a length of an in-memory slice (or
      such a length plus [SSLRecordSize]), far inside that range.  The
      conversions to the foreign [C.int] (32 bits) and [C.long] are written
      out with [C_int] and [C_long].
    - A byte slice owned by the read adapter is a [slice]: its elements
      together with the cells of its backing array between [len] and [cap].
    - A Go computation either returns or panics, and in both cases leaves a
      state behind: the monad [go]. *)

From Stdlib Require Import String Strings.Byte.
From Stdlib Require Import ZArith List Bool Lia.
Import ListNotations.

Local Open Scope Z_scope.

Set Implicit Arguments.

(* ================================================================= *)
(** ** Go computations: state and panics *)

Inductive outcome (St A : Type) : Type :=
| Returns (a : A) (s : St)
| Panics (msg : string) (s : St).

Arguments Returns {St A} a s.
Arguments Panics {St A} msg s.

Definition go (St A : Type) : Type := St -> outcome St A.

Definition ret {St A : Type} (a : A) : go St A := fun s => Returns a s.

Definition bind {St A B : Type} (m : go St A) (k : A -> go St B) : go St B :=
  fun s =>
    match m s with
    | Returns a s' => k a s'
    | Panics msg s' => Panics msg s'
    end.

Definition panic {St A : Type} (msg : string) : go St A := fun s => Panics msg s.

Definition gets {St A : Type} (f : St -> A) : go St A := fun s => Returns (f s) s.

Definition modify {St : Type} (f : St -> St) : go St unit := fun s => Returns tt (f s).

Declare Scope go_scope.
Delimit Scope go_scope with go.

Notation "x <- m ;; k" := (bind m (fun x => k))
  (at level 61, m at next level, right associativity) : go_scope.
Notation "' p <- m ;; k" := (bind m (fun x => match x with p => k end))
  (at level 61, p pattern, m at next level, right associativity) : go_scope.
Notation "m ;; k" := (bind m (fun _ => k))
  (at level 61, right associativity) : go_scope.

Local Open Scope go_scope.

(** [defer func() { if err := recover(); err != nil { ...; rc = -1 } }()]:
    the deferred function of every exported callback.  A panic of the body is
    stopped here and the named result [rc] is overwritten with [-1]. *)
Definition recover {St : Type} (body : go St Z) (s : St) : Z * St :=
  match body s with
  | Returns rc s' => (rc, s')
  | Panics _ s' => (-1, s')
  end.

(** The same for a callback that also leaves bytes in foreign memory:
    [untouched] is that memory as it was on entry. *)
Definition recover_mem {St M : Type} (untouched : M) (body : go St (Z * M)) (s : St)
  : Z * M * St :=
  match body s with
  | Returns r s' => (r, s')
  | Panics _ s' => (-1, untouched, s')
  end.

(* ================================================================= *)
(** ** Integers of the foreign interface *)

(** Conversion of an integer to a signed [w]-bit one (two's complement). *)
Definition wrap (w : Z) (z : Z) : Z := (z + 2 ^ (w - 1)) mod 2 ^ w - 2 ^ (w - 1).

(** [C.int] has 32 bits.  [C.long] has 64 bits on the LP64 targets and 32
    elsewhere; the counts converted to it below are buffer lengths, and no
    property stated here depends on the choice. *)
Definition C_int (z : Z) : Z := wrap 32 z.
Definition C_long (z : Z) : Z := wrap 64 z.

Definition INT_MAX : Z := 2147483647.
Definition INT_MIN : Z := -2147483648.

(** The values a [C.int] argument can take. *)
Definition is_C_int (z : Z) : Prop := INT_MIN <= z <= INT_MAX.

Definition len {A : Type} (l : list A) : Z := Z.of_nat (length l).

(* ================================================================= *)
(** ** Byte slices *)

(** The builtin [copy(dst, src)]: overwrites the first
    [min(len(dst), len(src))] cells of [dst] and returns that count.  The
    source is read before the destination is written (the two may overlap). *)
Definition copy (dst src : list byte) : list byte * Z :=
  let k := Nat.min (length dst) (length src) in
  (firstn k src ++ skipn k dst, Z.of_nat k).

(** [s[n:]] on the elements of a slice. *)
Definition slice_from {St : Type} (s : list byte) (n : Z) : go St (list byte) :=
  if (0 <=? n) && (n <=? len s) then ret (skipn (Z.to_nat n) s)
  else panic "slice bounds out of range".

(** [s[:k]] on the elements of a slice, for [k] up to its length (the
    write adapter never reslices beyond it). *)
Definition slice_upto {St : Type} (s : list byte) (k : Z) : go St (list byte) :=
  if (0 <=? k) && (k <=? len s) then ret (firstn (Z.to_nat k) s)
  else panic "slice bounds out of range".

(** A slice whose backing array starts where the slice starts: [elems] are
    the cells below [len], [spare] the cells from [len] up to [cap]. *)
Record slice : Type := { elems : list byte; spare : list byte }.

Definition slen (s : slice) : Z := len (elems s).
Definition scap (s : slice) : Z := len (elems s) + len (spare s).

(** The [nil] slice. *)
Definition nil_slice : slice := {| elems := []; spare := [] |}.

(** [make([]byte, l, c)]. *)
Definition make (l c : Z) : slice :=
  {| elems := repeat x00 (Z.to_nat l); spare := repeat x00 (Z.to_nat (c - l)) |}.

(** [s[:k]]: legal up to the capacity. *)
Definition reslice {St : Type} (s : slice) (k : Z) : go St slice :=
  if (0 <=? k) && (k <=? scap s) then
    let arr := elems s ++ spare s in
    ret {| elems := firstn (Z.to_nat k) arr; spare := skipn (Z.to_nat k) arr |}
  else panic "slice bounds out of range".

(** Writing [bytes] through a slice that aliases [region]: at most
    [len(region)] bytes land, the rest of the region keeps its contents. *)
Definition store (region bytes : list byte) : list byte :=
  firstn (length region) (bytes ++ skipn (length bytes) region).

(* ================================================================= *)
(** ** The connection *)

Inductive error : Type :=
| io_EOF
| net_error (msg : string).

(** [net.Conn] is an interface implemented outside this package.  A
    connection is given by what its [k]-th [Read] and [k]-th [Write] answer
    ([on_read k (len dst)] is the bytes put into [dst] and the error,
    [on_write k p] the count and the error) and carries the log of the calls
    made on it: [received] are the bytes it has put into read destinations,
    [sent] the bytes it has taken from write arguments. *)
Record Conn : Type := {
  on_read : nat -> Z -> list byte * option error;
  on_write : nat -> list byte -> Z * option error;
  read_log : list Z;
  write_log : list (list byte);
  received : list byte;
  sent : list byte
}.

(** The contract of [io.Reader]: [0 <= n <= len(p)]. *)
Definition reader_ok (c : Conn) : Prop :=
  forall k cap, 0 <= cap -> len (fst (on_read c k cap)) <= cap.

(** The contract of [io.Writer]: [0 <= n <= len(p)]. *)
Definition writer_ok (c : Conn) : Prop :=
  forall k p, 0 <= fst (on_write c k p) <= len p.

Definition Conn_Read (c : Conn) (dst : list byte) : (list byte * option error) * Conn :=
  let r := on_read c (length (read_log c)) (len dst) in
  (r, {| on_read := on_read c; on_write := on_write c;
         read_log := read_log c ++ [len dst];
         write_log := write_log c;
         received := received c ++ firstn (length dst) (fst r);
         sent := sent c |}).

Definition Conn_Write (c : Conn) (p : list byte) : (Z * option error) * Conn :=
  let r := on_write c (length (write_log c)) p in
  (r, {| on_read := on_read c; on_write := on_write c;
         read_log := read_log c;
         write_log := write_log c ++ [p];
         received := received c;
         sent := sent c ++ firstn (Z.to_nat (fst r)) p |}).

(* ================================================================= *)
(** ** The foreign side of a callback *)

(** Flag bits and control commands of OpenSSL's [bio.h]. *)
Definition BIO_FLAGS_READ : Z := 1.
Definition BIO_FLAGS_WRITE : Z := 2.
Definition BIO_FLAGS_IO_SPECIAL : Z := 4.
Definition BIO_FLAGS_RWS : Z :=
  Z.lor BIO_FLAGS_READ (Z.lor BIO_FLAGS_WRITE BIO_FLAGS_IO_SPECIAL).
Definition BIO_FLAGS_SHOULD_RETRY : Z := 8.

Definition BIO_CTRL_PENDING : Z := 10.
Definition BIO_CTRL_FLUSH : Z := 11.
Definition BIO_CTRL_DUP : Z := 12.
Definition BIO_CTRL_WPENDING : Z := 13.

(** Modelled from the spec: the handle registry ([newMapping], [token],
    [Get]) and the shim accessors of a [C.BIO] are not part of [bio.go].  The
    spec gives [Get(token) -> ref | NotFound]; a [C.BIO] is therefore its flag
    word together with the adapter that the token in its data slot denotes
    in the registry, [None] when the registry has no such entry. *)
Record BIO (A : Type) : Type := { bio_flags : Z; bio_data : option A }.

Arguments bio_flags {A} b.
Arguments bio_data {A} b.

Definition set_flags {A : Type} (f : Z) (b : BIO A) : BIO A :=
  {| bio_flags := f; bio_data := bio_data b |}.

Definition set_data {A : Type} (a : option A) (b : BIO A) : BIO A :=
  {| bio_flags := bio_flags b; bio_data := a |}.

(** [BIO_clear_flags(b, m)] is [b->flags &= ~m] and [BIO_set_flags(b, m)]
    is [b->flags |= m]. *)
Definition X_BIO_clear_flags {A : Type} (m : Z) : go (BIO A) unit :=
  modify (fun b => set_flags (Z.land (bio_flags b) (Z.lnot m)) b).

Definition X_BIO_set_flags {A : Type} (m : Z) : go (BIO A) unit :=
  modify (fun b => set_flags (Z.lor (bio_flags b) m) b).

Definition bioClearRetryFlags {A : Type} : go (BIO A) unit :=
  X_BIO_clear_flags (Z.lor BIO_FLAGS_RWS BIO_FLAGS_SHOULD_RETRY).

Definition bioSetRetryRead {A : Type} : go (BIO A) unit :=
  X_BIO_set_flags (Z.lor BIO_FLAGS_READ BIO_FLAGS_SHOULD_RETRY).

(** Whether the engine is told to retry. *)
Definition should_retry {A : Type} (b : BIO A) : bool :=
  negb (Z.land (bio_flags b) BIO_FLAGS_SHOULD_RETRY =? 0).

(** The BIO after [bioClearRetryFlags], and after a following
    [bioSetRetryRead]. *)
Definition cleared {A : Type} (b : BIO A) : BIO A :=
  set_flags
    (Z.land (bio_flags b) (Z.lnot (Z.lor BIO_FLAGS_RWS BIO_FLAGS_SHOULD_RETRY))) b.

Definition retrying {A : Type} (b : BIO A) : BIO A :=
  set_flags
    (Z.lor (bio_flags (cleared b)) (Z.lor BIO_FLAGS_READ BIO_FLAGS_SHOULD_RETRY)) b.

(** A method with a pointer receiver, called on the adapter the BIO
    denotes.  Calling it through a nil pointer faults. *)
Definition on_ptr {A X : Type} (m : go A X) : go (BIO A) X :=
  fun b =>
    match bio_data b with
    | None => Panics "invalid memory address or nil pointer dereference" b
    | Some a =>
        match m a with
        | Returns x a' => Returns x (set_data (Some a') b)
        | Panics msg a' => Panics msg (set_data (Some a') b)
        end
    end.

(** A [*C.char] argument: the null pointer, or a pointer to a region of
    foreign memory with the given contents. *)
Inductive cptr : Type :=
| NULL
| Ptr (mem : list byte).

Definition is_null (p : cptr) : bool :=
  match p with NULL => true | Ptr _ => false end.

Definition is_nil {A : Type} (p : option A) : bool :=
  match p with None => true | Some _ => false end.

(** The slice header built over foreign memory: [length] bytes from the
    pointer on. *)
Definition nonCopyGoBytes (mem : list byte) (length : Z) : list byte :=
  firstn (Z.to_nat length) mem.

Definition nonCopyCString (data : cptr) (size : Z) : list byte :=
  nonCopyGoBytes (match data with NULL => [] | Ptr mem => mem end) size.

Definition SSLRecordSize : Z := 16 * 1024.

(* ================================================================= *)
(** ** The write adapter *)

(** [type writeBio struct].  The two mutexes take no part in a sequence of
    complete calls and are left out.  The capacity of [buf] is never read by
    the adapter, so [buf] is the list of its elements. *)
Module writeBio.
Record t : Type := {
  buf : list byte;
  release_buffers : bool;
  conn : option Conn
}.

Definition set_buf (l : list byte) (wb : t) : t :=
  {| buf := l; release_buffers := release_buffers wb; conn := conn wb |}.

Definition set_conn (c : option Conn) (wb : t) : t :=
  {| buf := buf wb; release_buffers := release_buffers wb; conn := c |}.
End writeBio.

Definition loadWritePtr : go (BIO writeBio.t) (option writeBio.t) :=
  gets bio_data.

(** [func go_write_bio_write(b *C.BIO, data *C.char, size C.int) (rc C.int)],
    below its deferred [recover]. *)
Definition go_write_bio_write_body (data : cptr) (size : Z) : go (BIO writeBio.t) Z :=
  ptr <- loadWritePtr ;;
  if is_nil ptr || is_null data || (size <? 0) then ret (-1)
  else
    bioClearRetryFlags ;;
    on_ptr (modify (fun wb =>
      writeBio.set_buf (writeBio.buf wb ++ nonCopyCString data size) wb)) ;;
    ret size.

Definition go_write_bio_write (data : cptr) (size : Z) (b : BIO writeBio.t)
  : Z * BIO writeBio.t :=
  recover (go_write_bio_write_body data size) b.

Definition writeBioPending : go (BIO writeBio.t) Z :=
  ptr <- loadWritePtr ;;
  match ptr with
  | None => ret 0
  | Some wb => ret (C_long (len (writeBio.buf wb)))
  end.

(** [wb.conn.Write(data)]. *)
Definition wb_conn_Write (data : list byte) : go writeBio.t (Z * option error) :=
  fun wb =>
    match writeBio.conn wb with
    | None => Panics "invalid memory address or nil pointer dereference" wb
    | Some c =>
        let (r, c') := Conn_Write c data in
        Returns r (writeBio.set_conn (Some c') wb)
    end.

(** [func (wb *writeBio) WriteToConn() (rv int64, err error)]. *)
Definition WriteToConn : go writeBio.t (Z * option error) :=
  (* write whatever data we currently have *)
  data <- gets writeBio.buf ;;
  if len data =? 0 then ret (0, None)
  else
    ' (n, err) <- wb_conn_Write data ;;
    (* subtract however much data we wrote from the buffer *)
    cur <- gets writeBio.buf ;;
    rest <- slice_from cur n ;;
    let (arr, k) := copy cur rest in
    head <- slice_upto arr k ;;
    modify (writeBio.set_buf head) ;;
    release <- gets writeBio.release_buffers ;;
    now <- gets writeBio.buf ;;
    (if release && (len now =? 0)
     then modify (writeBio.set_buf [])
     else ret tt) ;;
    ret (n, err).

Definition is_err (e : option error) : bool :=
  match e with None => false | Some _ => true end.

Definition writeBioFlush : go (BIO writeBio.t) Z :=
  ptr <- loadWritePtr ;;
  match ptr with
  | None => ret 0
  | Some _ =>
      ' (n, err) <- on_ptr WriteToConn ;;
      if is_err err then ret 0 else ret (C_long n)
  end.

(** [func go_write_bio_ctrl(b *C.BIO, cmd C.int, arg1 C.long, arg2
    unsafe.Pointer) (rc C.long)], below its deferred [recover]; the two
    arguments it ignores are left out. *)
Definition go_write_bio_ctrl_body (cmd : Z) : go (BIO writeBio.t) Z :=
  if cmd =? BIO_CTRL_WPENDING then writeBioPending
  else if cmd =? BIO_CTRL_FLUSH then writeBioFlush
  else if cmd =? BIO_CTRL_DUP then ret 1
  else ret 0.

Definition go_write_bio_ctrl (cmd : Z) (b : BIO writeBio.t) : Z * BIO writeBio.t :=
  recover (go_write_bio_ctrl_body cmd) b.

(* ================================================================= *)
(** ** The read adapter *)

(** [type readBio struct], without its mutexes. *)
Module readBio.
Record t : Type := {
  buf : slice;
  eof : bool;
  release_buffers : bool;
  conn : option Conn
}.

Definition set_buf (s : slice) (rb : t) : t :=
  {| buf := s; eof := eof rb; release_buffers := release_buffers rb;
     conn := conn rb |}.

Definition set_eof (e : bool) (rb : t) : t :=
  {| buf := buf rb; eof := e; release_buffers := release_buffers rb;
     conn := conn rb |}.

Definition set_conn (c : option Conn) (rb : t) : t :=
  {| buf := buf rb; eof := eof rb; release_buffers := release_buffers rb;
     conn := c |}.
End readBio.

Definition loadReadPtr : go (BIO readBio.t) (option readBio.t) :=
  gets bio_data.

(** [func go_read_bio_read(b *C.BIO, data *C.char, size C.int) (rc C.int)],
    below its deferred [recover].  The second component of the result is
    the destination [data[0:size]] as the callback leaves it. *)
Definition go_read_bio_read_body (data : cptr) (size : Z)
  : go (BIO readBio.t) (Z * list byte) :=
  let untouched := nonCopyCString data size in
  ptr <- loadReadPtr ;;
  if is_nil ptr || (size <? 0) then ret (-1, untouched)
  else
    bioClearRetryFlags ;;
    cur <- on_ptr (gets readBio.buf) ;;
    if slen cur =? 0 then
      eof <- on_ptr (gets readBio.eof) ;;
      if eof then ret (0, untouched)
      else
        bioSetRetryRead ;;
        ret (-1, untouched)
    else if (size =? 0) || is_null data then ret (C_int (slen cur), untouched)
    else
      let (dst, n) := copy (nonCopyCString data size) (elems cur) in
      rest <- slice_from (elems cur) n ;;
      let (arr, k) := copy (elems cur) rest in
      new <- reslice {| elems := arr; spare := spare cur |} k ;;
      on_ptr (modify (readBio.set_buf new)) ;;
      release <- on_ptr (gets readBio.release_buffers) ;;
      (if release && (slen new =? 0)
       then on_ptr (modify (readBio.set_buf nil_slice))
       else ret tt) ;;
      ret (C_int n, dst).

Definition go_read_bio_read (data : cptr) (size : Z) (b : BIO readBio.t)
  : Z * list byte * BIO readBio.t :=
  recover_mem (nonCopyCString data size) (go_read_bio_read_body data size) b.

Definition readBioPending : go (BIO readBio.t) Z :=
  ptr <- loadReadPtr ;;
  match ptr with
  | None => ret 0
  | Some rb => ret (C_long (slen (readBio.buf rb)))
  end.

(** [func go_read_bio_ctrl(b *C.BIO, cmd C.int, arg1 C.long, arg2
    unsafe.Pointer) (rc C.long)], below its deferred [recover]. *)
Definition go_read_bio_ctrl_body (cmd : Z) : go (BIO readBio.t) Z :=
  if cmd =? BIO_CTRL_PENDING then readBioPending
  else if (cmd =? BIO_CTRL_DUP) || (cmd =? BIO_CTRL_FLUSH) then ret 1
  else ret 0.

Definition go_read_bio_ctrl (cmd : Z) (b : BIO readBio.t) : Z * BIO readBio.t :=
  recover (go_read_bio_ctrl_body cmd) b.

(** [rb.conn.Read(dst)] for [dst := rb.buf[len(rb.buf):cap(rb.buf)]]: the
    destination is the spare part of the buffer's own backing array, so what
    the connection stores shows there. *)
Definition rb_conn_Read_tail : go readBio.t (Z * option error) :=
  fun rb =>
    match readBio.conn rb with
    | None => Panics "invalid memory address or nil pointer dereference" rb
    | Some c =>
        let cur := readBio.buf rb in
        let dst := spare cur in
        let (r, c') := Conn_Read c dst in
        Returns (len (fst r), snd r)
          (readBio.set_conn (Some c')
             (readBio.set_buf {| elems := elems cur; spare := store dst (fst r) |} rb))
    end.

(** [s[lo:hi]] for [lo = len(s)]: a prefix of the spare cells. *)
Definition spare_range {St : Type} (s : slice) (lo hi : Z) : go St (list byte) :=
  if (0 <=? lo) && (lo <=? hi) && (hi <=? scap s)
  then ret (firstn (Z.to_nat (hi - lo)) (spare s))
  else panic "slice bounds out of range".

(** [func (rb *readBio) ReadFromConnOnce() (n int, err error)], in the
    three parts its locks cut it into.  First, under the data lock: *)
Definition reserve_record : go readBio.t slice :=
  (* make sure we have a destination that fits at least one SSL record *)
  old <- gets readBio.buf ;;
  (if scap old <? slen old + SSLRecordSize then
     let new_buf := make (slen old) (slen old + SSLRecordSize) in
     let (arr, _) := copy (elems new_buf) (elems old) in
     modify (readBio.set_buf {| elems := arr; spare := spare new_buf |})
   else ret tt) ;;
  (* dst := rb.buf[len(rb.buf):cap(rb.buf)]; dst_slice := rb.buf *)
  gets readBio.buf.

(** Last, under the data lock again, with the count [n] the connection
    returned. *)
Definition take_in (dst_slice : slice) (n : Z) : go readBio.t unit :=
  if 0 <? n then
    cur <- gets readBio.buf ;;
    (if negb (slen dst_slice =? slen cur) then
       (* someone shrunk the buffer, so we read in too far ahead and we
          need to slide backwards *)
       let dst := skipn (Z.to_nat (slen dst_slice - slen cur)) (spare cur) in
       target <- spare_range cur (slen cur) (slen cur + n) ;;
       let (moved, _) := copy target dst in
       modify (readBio.set_buf
         {| elems := elems cur;
            spare := moved ++ skipn (length target) (spare cur) |})
     else ret tt) ;;
    cur <- gets readBio.buf ;;
    new <- reslice cur (slen cur + n) ;;
    modify (readBio.set_buf new)
  else ret tt.

(** In between, without the data lock, the one read from the connection. *)
Definition ReadFromConnOnce : go readBio.t (Z * option error) :=
  dst_slice <- reserve_record ;;
  ' (n, err) <- rb_conn_Read_tail ;;
  take_in dst_slice n ;;
  ret (n, err).

(** [func (rb *readBio) MarkEOF()]. *)
Definition MarkEOF : go readBio.t unit :=
  modify (readBio.set_eof true).

(* ================================================================= *)
(** ** The raw stream facade *)

(** [func (b *anyBio) Read(buf []byte) (n int, err error)].  [X_BIO_read]
    is the engine's read on the handle: given the requested size it answers
    its return code and the bytes it stored.  The result carries [buf] as
    the call leaves it. *)
Definition anyBio_Read (X_BIO_read : Z -> Z * list byte) (buf : list byte)
  : Z * option error * list byte :=
  if len buf =? 0 then (0, None, buf)
  else
    let (r, stored) := X_BIO_read (C_int (len buf)) in
    let n := r in
    if n <=? 0 then (0, Some io_EOF, store buf stored)
    else (n, None, store buf stored).

(* ================================================================= *)
(** ** Sequences of calls *)

(** A foreign callback seen as one step of a Go computation. *)
Definition call {St R : Type} (f : St -> R * St) : go St R :=
  fun s => let (r, s') := f s in Returns r s'.

(** The calls made on a write adapter: the engine appends with
    [go_write_bio_write] and queries or flushes with [go_write_bio_ctrl];
    the connection owner flushes with [WriteToConn]. *)
Inductive wcall : Type :=
| Append (bytes : list byte)
| Flush
| WCtrl (cmd : Z).

Definition wstep (c : wcall) : go (BIO writeBio.t) Z :=
  match c with
  | Append bytes => call (go_write_bio_write (Ptr bytes) (len bytes))
  | Flush => ' (n, _) <- on_ptr WriteToConn ;; ret n
  | WCtrl cmd => call (go_write_bio_ctrl cmd)
  end.

(** Runs the calls in order and collects what each returned. *)
Fixpoint wrun (cs : list wcall) : go (BIO writeBio.t) (list Z) :=
  match cs with
  | [] => ret []
  | c :: cs' => r <- wstep c ;; rs <- wrun cs' ;; ret (r :: rs)
  end.


(** What the connection of the adapter has been handed so far, and what
    the adapter still holds. *)
Definition wsent (b : BIO writeBio.t) : list byte :=
  match bio_data b with
  | Some wb => match writeBio.conn wb with Some c => sent c | None => [] end
  | None => []
  end.

Definition wpending (b : BIO writeBio.t) : list byte :=
  match bio_data b with
  | Some wb => writeBio.buf wb
  | None => []
  end.

(** A registered write adapter over a connection that honours [io.Writer]. *)
Definition wgood (b : BIO writeBio.t) : Prop :=
  exists wb c, bio_data b = Some wb /\ writeBio.conn wb = Some c /\ writer_ok c.

(** The calls made on a read adapter: the engine reads with
    [go_read_bio_read] and queries with [go_read_bio_ctrl]; the connection
    owner fills the buffer with [ReadFromConnOnce] and marks the end of the
    stream with [MarkEOF]. *)
Inductive rcall : Type :=
| Request (data : cptr) (size : Z)
| RCtrl (cmd : Z)
| Fill
| Mark.

(** A step reports the value the call returned and the bytes the engine
    obtained by it: the first [rc] bytes of its destination.  The size of a
    request reaches the callback as a [C.int]. *)
Definition rstep (c : rcall) : go (BIO readBio.t) (Z * list byte) :=
  match c with
  | Request data size =>
      ' (rc, dst) <- call (go_read_bio_read data (C_int size)) ;;
      ret (rc, firstn (Z.to_nat rc) dst)
  | RCtrl cmd => rc <- call (go_read_bio_ctrl cmd) ;; ret (rc, [])
  | Fill => ' (n, _) <- on_ptr ReadFromConnOnce ;; ret (n, [])
  | Mark => on_ptr MarkEOF ;; ret (0, [])
  end.

Fixpoint rrun (cs : list rcall) : go (BIO readBio.t) (list (Z * list byte)) :=
  match cs with
  | [] => ret []
  | c :: cs' => r <- rstep c ;; rs <- rrun cs' ;; ret (r :: rs)
  end.

(** The bytes drained by a run, in order. *)
Definition drained (rs : list (Z * list byte)) : list byte :=
  concat (map snd rs).

Definition rreceived (b : BIO readBio.t) : list byte :=
  match bio_data b with
  | Some rb => match readBio.conn rb with Some c => received c | None => [] end
  | None => []
  end.

Definition rpending (b : BIO readBio.t) : list byte :=
  match bio_data b with
  | Some rb => elems (readBio.buf rb)
  | None => []
  end.

Definition reof (b : BIO readBio.t) : bool :=
  match bio_data b with
  | Some rb => readBio.eof rb
  | None => false
  end.

(** A registered read adapter over a connection that honours [io.Reader]. *)
Definition rgood (b : BIO readBio.t) : Prop :=
  exists rb c, bio_data b = Some rb /\ readBio.conn rb = Some c /\ reader_ok c.

(** The state a computation leaves, and what it returned if it did. *)
Definition final {St A : Type} (o : outcome St A) : St :=
  match o with Returns _ s => s | Panics _ s => s end.

Definition returned {St A : Type} (o : outcome St A) : option A :=
  match o with Returns a _ => Some a | Panics _ _ => None end.

(** A computation keeps an observation [f] of the state when the state it
    leaves, returning or not, shows the same [f]. *)
Definition keeps {St A X : Type} (f : St -> X) (m : go St A) : Prop :=
  forall s, f (final (m s)) = f s.

(** The [eof] flag before a sequence of calls and after each of them. *)
Fixpoint eof_history (cs : list rcall) (b : BIO readBio.t) : list bool :=
  reof b ::
  match cs with
  | [] => []
  | c :: cs' => eof_history cs' (final (rstep c b))
  end.

(* ================================================================= *)
(** ** Concrete connections and adapters *)

(** A connection that takes at most [k] bytes per [Write], reporting [e]
    when that is short of the request, and whose successive [Read]s deliver
    the given chunks (cut to the destination) and then the end of the
    stream. *)
Definition scripted_conn (k : Z) (e : option error) (chunks : list (list byte)) : Conn :=
  {| on_read := fun i cap =>
       match nth_error chunks i with
       | Some ch => (firstn (Z.to_nat cap) ch, None)
       | None => ([], Some io_EOF)
       end;
     on_write := fun _ p =>
       (Z.min k (len p), if len p <=? k then None else e);
     read_log := []; write_log := []; received := []; sent := [] |}.

(** A freshly made adapter registered under a BIO. *)
Definition new_write_bio (release : bool) (c : option Conn) : BIO writeBio.t :=
  {| bio_flags := 0;
     bio_data := Some {| writeBio.buf := []; writeBio.release_buffers := release;
                         writeBio.conn := c |} |}.

Definition new_read_bio (release : bool) (c : option Conn) : BIO readBio.t :=
  {| bio_flags := 0;
     bio_data := Some {| readBio.buf := nil_slice; readBio.eof := false;
                         readBio.release_buffers := release;
                         readBio.conn := c |} |}.

(** ["server test message\n"], the message of [TestOpenSSLClientServer]. *)
Definition serverMsg : list byte :=
  list_byte_of_string "server test message" ++ [x0a].

(** The number of [Write] calls the adapter's connection has seen. *)
Definition wwrites (b : BIO writeBio.t) : Z :=
  match bio_data b with
  | Some wb => match writeBio.conn wb with Some c => len (write_log c) | None => 0 end
  | None => 0
  end.

(** A write adapter holding the given bytes.  Without a connection its
    [conn] is the nil interface. *)
Definition write_bio_holding (pending : list byte) (c : option Conn) : BIO writeBio.t :=
  {| bio_flags := 0;
     bio_data := Some {| writeBio.buf := pending; writeBio.release_buffers := false;
                         writeBio.conn := c |} |}.

(** A connection that breaks the contract of [io.Writer]: it claims to
    have written one byte more than it was given. *)
Definition overreporting_conn : Conn :=
  {| on_read := fun _ _ => ([], None);
     on_write := fun _ p => (len p + 1, None);
     read_log := []; write_log := []; received := []; sent := [] |}.

(** A read adapter holding the given bytes, with no spare capacity. *)
Definition read_bio_holding (pending : list byte) (eof : bool) : BIO readBio.t :=
  {| bio_flags := 0;
     bio_data := Some {| readBio.buf := {| elems := pending; spare := [] |};
                         readBio.eof := eof;
                         readBio.release_buffers := false;
                         readBio.conn := None |} |}.

(** 2 GiB of buffered zero bytes. *)
Definition two_gib : list byte := repeat x00 (Z.to_nat 2147483648).

(* ================================================================= *)
(** ** The rest of the facade *)

(** [func (b *anyBio) Write(buf []byte) (written int, err error)].
    [X_BIO_write] is the engine's write on the handle: given the bytes at
    the pointer and the requested size it answers its return code.  The
    error made with [errors.New] is an error value carrying its message. *)
Definition anyBio_Write (X_BIO_write : list byte -> Z -> Z) (buf : list byte)
  : Z * option error :=
  if len buf =? 0 then (0, None)
  else
    let n := X_BIO_write buf (C_int (len buf)) in
    if negb (n =? len buf) then (n, Some (net_error "BIO write failed"))
    else (n, None).

(* ================================================================= *)
(** ** Observations of a BIO *)

(** The connection of the adapter a BIO denotes, with its call log. *)
Definition wconn (b : BIO writeBio.t) : option (option Conn) :=
  option_map writeBio.conn (bio_data b).

Definition rconn (b : BIO readBio.t) : option (option Conn) :=
  option_map readBio.conn (bio_data b).

(** The four bits the callbacks manage, and all the others. *)
Definition retry_bits {A : Type} (b : BIO A) : Z :=
  Z.land (bio_flags b) (Z.lor BIO_FLAGS_RWS BIO_FLAGS_SHOULD_RETRY).

Definition other_bits {A : Type} (b : BIO A) : Z :=
  Z.land (bio_flags b) (Z.lnot (Z.lor BIO_FLAGS_RWS BIO_FLAGS_SHOULD_RETRY)).

(** The capacity of the buffer of the read adapter a BIO denotes. *)
Definition rcap (b : BIO readBio.t) : Z :=
  match bio_data b with
  | Some rb => scap (readBio.buf rb)
  | None => 0
  end.

(* ================================================================= *)
(** ** Calls that overlap *)

(** [WriteToConn] holds the data lock only to take its snapshot and, after
    the write, to subtract: these are its two parts. *)
Definition WriteToConn_write : go writeBio.t (option (Z * option error)) :=
  (* write whatever data we currently have *)
  data <- gets writeBio.buf ;;
  if len data =? 0 then ret None
  else
    r <- wb_conn_Write data ;;
    ret (Some r).

Definition WriteToConn_subtract (n : Z) : go writeBio.t unit :=
  (* subtract however much data we wrote from the buffer *)
  cur <- gets writeBio.buf ;;
  rest <- slice_from cur n ;;
  let (arr, k) := copy cur rest in
  head <- slice_upto arr k ;;
  modify (writeBio.set_buf head) ;;
  release <- gets writeBio.release_buffers ;;
  now <- gets writeBio.buf ;;
  if release && (len now =? 0)
  then modify (writeBio.set_buf [])
  else ret tt.

Definition WriteToConn_in_parts : go writeBio.t (Z * option error) :=
  r <- WriteToConn_write ;;
  match r with
  | None => ret (0, None)
  | Some (n, err) => WriteToConn_subtract n ;; ret (n, err)
  end.

(** An append that the engine makes while [WriteToConn] is between its
    write and its subtraction. *)
Definition WriteToConn_overlapped (bytes : list byte)
  : go (BIO writeBio.t) (Z * option error * Z) :=
  r <- on_ptr WriteToConn_write ;;
  rc <- call (go_write_bio_write (Ptr bytes) (len bytes)) ;;
  match r with
  | None => ret (0, None, rc)
  | Some (n, err) => on_ptr (WriteToConn_subtract n) ;; ret (n, err, rc)
  end.

(** A read request that the engine makes while [ReadFromConnOnce] is
    between its read and its second critical section. *)
Definition ReadFromConnOnce_overlapped (data : cptr) (size : Z)
  : go (BIO readBio.t) (Z * option error * (Z * list byte)) :=
  dst_slice <- on_ptr reserve_record ;;
  ' (n, err) <- on_ptr rb_conn_Read_tail ;;
  req <- call (go_read_bio_read data size) ;;
  on_ptr (take_in dst_slice n) ;;
  ret (n, err, req).

(** A connection whose every [Read] claims more bytes than the
    destination holds. *)
Definition overfilling_conn : Conn :=
  {| on_read := fun _ cap => (repeat x00 (Z.to_nat cap + 1), None);
     on_write := fun _ p => (len p, None);
     read_log := []; write_log := []; received := []; sent := [] |}.

(** A read adapter holding the given bytes over a connection. *)
Definition read_bio_over (pending : list byte) (release : bool) (c : option Conn)
  : BIO readBio.t :=
  {| bio_flags := 0;
     bio_data := Some {| readBio.buf := {| elems := pending; spare := [] |};
                         readBio.eof := false;
                         readBio.release_buffers := release;
                         readBio.conn := c |} |}.

(* ================================================================= *)
(** * Properties *)

Unset Implicit Arguments.

(** ** Lists and lengths *)

Lemma len_nonneg {A : Type} (l : list A) : 0 <= len l.
Proof. unfold len. lia. Qed.

Lemma len_app {A : Type} (l1 l2 : list A) : len (l1 ++ l2) = len l1 + len l2.
Proof. unfold len. rewrite length_app. lia. Qed.

Lemma len_zero_nil {A : Type} (l : list A) : len l = 0 -> l = [].
Proof. unfold len. destruct l; simpl; [reflexivity | lia]. Qed.

(** Moving the tail of a list to its front with [copy] and cutting at the
    count: the idiom [s = s[:copy(s, s[n:])]]. *)
Lemma copy_shift (l : list byte) (n : nat) :
  (n <= length l)%nat ->
  copy l (skipn n l) =
    (skipn n l ++ skipn (length l - n) l, Z.of_nat (length l - n)).
Proof.
  intros Hn. unfold copy. rewrite length_skipn.
  replace (Nat.min (length l) (length l - n)) with (length l - n)%nat by lia.
  rewrite firstn_all2 by (rewrite length_skipn; lia). reflexivity.
Qed.

Lemma firstn_shift (l : list byte) (n : nat) :
  (n <= length l)%nat ->
  firstn (length l - n) (skipn n l ++ skipn (length l - n) l) = skipn n l.
Proof.
  intros Hn. rewrite firstn_app, length_skipn.
  replace (length l - n - (length l - n))%nat with 0%nat by lia.
  rewrite firstn_0, app_nil_r. apply firstn_all2. rewrite length_skipn. lia.
Qed.

(** ** The write adapter *)

Ltac go_step :=
  unfold bind, ret, gets, modify, panic, call, recover, recover_mem.

(** One [WriteToConn] on a non-empty buffer over a well-behaved
    connection: the connection is asked once, for the whole buffer, and the
    bytes it took leave the front of the buffer. *)
Lemma WriteToConn_returns (wb : writeBio.t) (c : Conn) :
  writeBio.conn wb = Some c ->
  writer_ok c ->
  writeBio.buf wb <> [] ->
  let r := on_write c (length (write_log c)) (writeBio.buf wb) in
  exists wb',
    WriteToConn wb = Returns r wb' /\
    writeBio.buf wb' = skipn (Z.to_nat (fst r)) (writeBio.buf wb) /\
    writeBio.release_buffers wb' = writeBio.release_buffers wb /\
    writeBio.conn wb' = Some (snd (Conn_Write c (writeBio.buf wb))).
Proof.
  intros Hc Hok Hne r.
  assert (Hr : 0 <= fst r <= len (writeBio.buf wb)) by apply Hok.
  unfold WriteToConn, wb_conn_Write. go_step.
  destruct (len (writeBio.buf wb) =? 0) eqn:E.
  { apply Z.eqb_eq in E. apply len_zero_nil in E. contradiction. }
  rewrite Hc. unfold Conn_Write. fold r. destruct r as [n err] eqn:Er. simpl in Hr.
  cbn [writeBio.buf writeBio.set_conn writeBio.release_buffers writeBio.set_buf].
  unfold slice_from. go_step.
  replace ((0 <=? n) && (n <=? len (writeBio.buf wb))) with true
    by (symmetry; apply andb_true_iff; split; apply Z.leb_le; lia).
  assert (Hn : (Z.to_nat n <= length (writeBio.buf wb))%nat) by (unfold len in Hr; lia).
  rewrite (copy_shift _ _ Hn).
  unfold slice_upto. go_step.
  set (k := Z.of_nat (length (writeBio.buf wb) - Z.to_nat n)).
  set (arr := skipn (Z.to_nat n) (writeBio.buf wb) ++ _).
  assert (Hk : (0 <=? k) && (k <=? len arr) = true).
  { apply andb_true_iff; split; apply Z.leb_le; subst k arr; [lia|].
    unfold len. rewrite length_app, !length_skipn. lia. }
  rewrite Hk.
  assert (Hhead : firstn (Z.to_nat k) arr = skipn (Z.to_nat n) (writeBio.buf wb)).
  { subst k arr. rewrite Nat2Z.id. apply firstn_shift. exact Hn. }
  rewrite Hhead.
  cbn [writeBio.buf writeBio.set_conn writeBio.release_buffers writeBio.set_buf].
  destruct (writeBio.release_buffers wb &&
            (len (skipn (Z.to_nat n) (writeBio.buf wb)) =? 0)) eqn:Erel.
  - apply andb_true_iff in Erel. destruct Erel as [_ Hz].
    apply Z.eqb_eq in Hz. apply len_zero_nil in Hz.
    eexists. split; [reflexivity|]. cbn. rewrite Hz. auto.
  - eexists. split; [reflexivity|]. cbn. auto.
Qed.

Lemma WriteToConn_empty (wb : writeBio.t) :
  writeBio.buf wb = [] -> WriteToConn wb = Returns (0, None) wb.
Proof.
  intros H. unfold WriteToConn. go_step. rewrite H. reflexivity.
Qed.

(** The write callback never faults; it refuses a missing adapter, a null
    source and a negative size, and appends otherwise. *)
Lemma go_write_bio_write_body_returns (data : cptr) (size : Z) (b : BIO writeBio.t) :
  go_write_bio_write_body data size b =
    match bio_data b, data with
    | Some wb, Ptr mem =>
        if size <? 0 then Returns (-1) b
        else Returns size
               {| bio_flags :=
                    Z.land (bio_flags b)
                      (Z.lnot (Z.lor BIO_FLAGS_RWS BIO_FLAGS_SHOULD_RETRY));
                  bio_data :=
                    Some (writeBio.set_buf
                            (writeBio.buf wb ++ firstn (Z.to_nat size) mem) wb) |}
    | _, _ => Returns (-1) b
    end.
Proof.
  unfold go_write_bio_write_body, loadWritePtr, bioClearRetryFlags,
    X_BIO_clear_flags, on_ptr. go_step.
  destruct (bio_data b) as [wb|] eqn:Hb; [|reflexivity].
  destruct data as [|mem]; [reflexivity|].
  cbn [is_nil is_null orb]. destruct (size <? 0); [reflexivity|].
  cbn. rewrite Hb. reflexivity.
Qed.

Lemma wgood_inv (b : BIO writeBio.t) :
  wgood b ->
  exists wb c, bio_data b = Some wb /\ writeBio.conn wb = Some c /\ writer_ok c /\
               wsent b = sent c /\ wpending b = writeBio.buf wb.
Proof.
  intros (wb & c & Hb & Hc & Hok). exists wb, c.
  unfold wsent, wpending. rewrite Hb, Hc. auto.
Qed.

(** A flush through the adapter a BIO denotes. *)
Lemma on_ptr_WriteToConn (b : BIO writeBio.t) :
  wgood b ->
  exists r b',
    on_ptr WriteToConn b = Returns r b' /\ wgood b' /\
    0 <= fst r <= len (wpending b) /\
    wpending b' = skipn (Z.to_nat (fst r)) (wpending b) /\
    wsent b' = wsent b ++ firstn (Z.to_nat (fst r)) (wpending b) /\
    bio_flags b' = bio_flags b.
Proof.
  intros Hg. destruct (wgood_inv _ Hg) as (wb & c & Hb & Hc & Hok & Hs & Hp).
  rewrite Hs, Hp. unfold on_ptr. rewrite Hb.
  destruct (writeBio.buf wb) as [|x l] eqn:Hbuf.
  - rewrite (WriteToConn_empty _ Hbuf).
    exists (0, None), (set_data (Some wb) b). split; [reflexivity|].
    split; [exists wb, c; auto|].
    unfold wpending, wsent. cbn. rewrite Hc, Hbuf, app_nil_r. repeat split; auto; reflexivity.
  - assert (Hne : writeBio.buf wb <> []) by (rewrite Hbuf; discriminate).
    destruct (WriteToConn_returns wb c Hc Hok Hne) as (wb' & Hw & Hb' & _ & Hc').
    rewrite Hw. rewrite Hbuf in *.
    eexists _, _. split; [reflexivity|].
    split.
    { exists wb', (snd (Conn_Write c (x :: l))).
      split; [reflexivity|]. split; [exact Hc'|]. intros k p. apply Hok. }
    unfold wpending, wsent. cbn [bio_data set_data bio_flags]. rewrite Hc', Hb'.
    split; [apply Hok|]. auto.
Qed.



Lemma scripted_conn_writer_ok (k : Z) (e : option error) (chunks : list (list byte)) :
  0 <= k -> writer_ok (scripted_conn k e chunks).
Proof.
  intros Hk i p. cbn. pose proof (len_nonneg p). lia.
Qed.



(** C5, as stated, fails: a null source is refused even when the size is
    zero, although the adapter exists and the size is not negative. *)
Lemma go_write_bio_write_null_empty :
  fst (go_write_bio_write NULL 0
         (new_write_bio false (Some (scripted_conn 5 None [])))) = -1.
Proof. reflexivity. Qed.

(** C5, amended. [go_write_bio_write] fails, with [-1] and without touching
    the adapter or the flags, exactly when the BIO denotes no adapter, the
    source pointer is null (whatever the size) or the size is negative; in
    every other case it appends the [size] bytes at the source to the
    buffer, changes nothing else in the adapter, and returns [size]. *)
Theorem go_write_bio_write_spec (data : cptr) (size : Z) (b : BIO writeBio.t) :
  let rc := fst (go_write_bio_write data size b) in
  let b' := snd (go_write_bio_write data size b) in
  (rc = -1 <-> bio_data b = None \/ data = NULL \/ size < 0) /\
  (rc = -1 -> b' = b) /\
  (forall wb mem,
      bio_data b = Some wb -> data = Ptr mem -> 0 <= size ->
      rc = size /\
      bio_data b' =
        Some (writeBio.set_buf (writeBio.buf wb ++ firstn (Z.to_nat size) mem) wb) /\
      (len mem = size -> wpending b' = wpending b ++ mem)).
Proof.
  unfold go_write_bio_write. go_step. rewrite go_write_bio_write_body_returns.
  destruct (bio_data b) as [wb|] eqn:Hb.
  2:{ cbn. split; [|split]; [intuition | reflexivity | discriminate]. }
  destruct data as [|mem].
  { cbn. split; [|split]; [intuition | reflexivity | discriminate]. }
  destruct (size <? 0) eqn:E.
  { apply Z.ltb_lt in E. cbn. split; [|split]; [intuition | reflexivity | intros; lia]. }
  apply Z.ltb_ge in E. cbn [fst snd]. split; [|split].
  - split; [intros; lia|]. intros [H|[H|H]]; [discriminate | discriminate | lia].
  - intros; lia.
  - intros wb0 mem0 Hwb Hmem _. inversion Hwb; inversion Hmem; subst.
    split; [reflexivity|]. split; [reflexivity|].
    intros Hl. unfold wpending. rewrite Hb. cbn.
    rewrite <- Hl. unfold len. rewrite Nat2Z.id, firstn_all. reflexivity.
Qed.

(** C8, as stated, fails: the message has 20 bytes, four flushes of 5 bytes
    empty the buffer, and the fifth finds nothing to write. *)
Lemma server_message_fifth_flush_writes_nothing :
  len serverMsg = 20 /\
  returned
    (wrun [Append serverMsg; Flush; Flush; Flush; Flush;
           WCtrl BIO_CTRL_WPENDING; Flush]
       (new_write_bio false (Some (scripted_conn 5 None []))))
  = Some [20; 5; 5; 5; 5; 0; 0].
Proof. split; reflexivity. Qed.

(** C8, amended. Appending the 20 bytes of ["server test message\n"] to a
    write adapter whose connection takes 5 bytes per [Write] needs exactly 4
    flushes, each writing 5 bytes; the pending count, 20 after the append,
    drops by the 5 bytes written after each flush and is 0 after the fourth.
    A fifth flush returns 0 without calling the connection. *)
Theorem server_message_drains_in_four_flushes (release : bool) (e : option error) :
  let p := WCtrl BIO_CTRL_WPENDING in
  let o := wrun [Append serverMsg; p; Flush; p; Flush; p; Flush; p; Flush; p;
                 Flush; p]
             (new_write_bio release (Some (scripted_conn 5 e []))) in
  len serverMsg = 20 /\
  returned o = Some [20; 20; 5; 15; 5; 10; 5; 5; 5; 0; 0; 0] /\
  wsent (final o) = serverMsg /\
  wpending (final o) = [] /\
  wwrites (final o) = 4.
Proof.
  destruct release; destruct e as [[|m]|]; vm_compute; repeat split.
Qed.

(** ** The retry flags *)

Lemma cleared_no_retry (f : Z) :
  Z.land (Z.land f (Z.lnot (Z.lor BIO_FLAGS_RWS BIO_FLAGS_SHOULD_RETRY)))
    BIO_FLAGS_SHOULD_RETRY = 0.
Proof.
  rewrite <- Z.land_assoc.
  replace (Z.land (Z.lnot (Z.lor BIO_FLAGS_RWS BIO_FLAGS_SHOULD_RETRY))
             BIO_FLAGS_SHOULD_RETRY) with 0 by reflexivity.
  apply Z.land_0_r.
Qed.

Lemma set_retry_read (f : Z) :
  Z.land (Z.lor (Z.land f (Z.lnot (Z.lor BIO_FLAGS_RWS BIO_FLAGS_SHOULD_RETRY)))
            (Z.lor BIO_FLAGS_READ BIO_FLAGS_SHOULD_RETRY))
    BIO_FLAGS_SHOULD_RETRY = BIO_FLAGS_SHOULD_RETRY.
Proof.
  rewrite Z.land_lor_distr_l, cleared_no_retry. reflexivity.
Qed.

Lemma should_retry_cleared {A : Type} (b : BIO A) (a : option A) :
  should_retry (set_data a (cleared b)) = false.
Proof.
  unfold should_retry, cleared. cbn [bio_flags set_flags set_data].
  rewrite cleared_no_retry. reflexivity.
Qed.

Lemma should_retry_retrying {A : Type} (b : BIO A) (a : option A) :
  should_retry (set_data a (retrying b)) = true.
Proof.
  unfold should_retry, retrying, cleared. cbn [bio_flags set_flags set_data].
  rewrite set_retry_read. reflexivity.
Qed.

(** ** The read callback, case by case *)

Section ReadRequest.
Variables (data : cptr) (size : Z) (b : BIO readBio.t).

Lemma read_refused :
  bio_data b = None \/ size < 0 ->
  go_read_bio_read_body data size b = Returns (-1, nonCopyCString data size) b.
Proof.
  intros H. unfold go_read_bio_read_body, loadReadPtr. go_step.
  destruct (bio_data b) as [rb|]; [|reflexivity].
  destruct H as [H|H]; [discriminate|].
  apply Z.ltb_lt in H. cbn [is_nil orb]. rewrite H. reflexivity.
Qed.

Variable rb : readBio.t.
Hypothesis Hb : bio_data b = Some rb.
Hypothesis Hsize : 0 <= size.

Lemma read_empty_eof :
  slen (readBio.buf rb) = 0 -> readBio.eof rb = true ->
  go_read_bio_read_body data size b
  = Returns (0, nonCopyCString data size) (set_data (Some rb) (cleared b)).
Proof.
  intros Hl He. unfold go_read_bio_read_body, loadReadPtr, bioClearRetryFlags,
    X_BIO_clear_flags, on_ptr. go_step.
  rewrite Hb. cbn [is_nil orb]. apply Z.ltb_ge in Hsize. rewrite Hsize.
  cbn [bio_data set_flags set_data bio_flags]. rewrite Hb, Hl.
  cbn [Z.eqb bio_data set_data]. rewrite He. reflexivity.
Qed.

Lemma read_empty_retry :
  slen (readBio.buf rb) = 0 -> readBio.eof rb = false ->
  go_read_bio_read_body data size b
  = Returns (-1, nonCopyCString data size) (set_data (Some rb) (retrying b)).
Proof.
  intros Hl He. unfold go_read_bio_read_body, loadReadPtr, bioClearRetryFlags,
    bioSetRetryRead, X_BIO_clear_flags, X_BIO_set_flags, on_ptr. go_step.
  rewrite Hb. cbn [is_nil orb]. apply Z.ltb_ge in Hsize. rewrite Hsize.
  cbn [bio_data set_flags set_data bio_flags]. rewrite Hb, Hl.
  cbn [Z.eqb bio_data set_data]. rewrite He. reflexivity.
Qed.

Lemma read_query :
  slen (readBio.buf rb) <> 0 -> size = 0 \/ data = NULL ->
  go_read_bio_read_body data size b
  = Returns (C_int (slen (readBio.buf rb)), nonCopyCString data size)
      (set_data (Some rb) (cleared b)).
Proof.
  intros Hl Hq. unfold go_read_bio_read_body, loadReadPtr, bioClearRetryFlags,
    X_BIO_clear_flags, on_ptr. go_step.
  rewrite Hb. cbn [is_nil orb]. apply Z.ltb_ge in Hsize. rewrite Hsize.
  cbn [bio_data set_flags set_data bio_flags]. rewrite Hb.
  apply Z.eqb_neq in Hl. rewrite Hl.
  replace ((size =? 0) || is_null data) with true; [reflexivity|].
  symmetry. apply orb_true_iff. destruct Hq as [->| ->]; auto.
Qed.

(** The bytes copied out are the front of the buffer; exactly they are
    removed from it, and nothing else of the adapter changes. *)
Lemma read_copy (mem : list byte) :
  slen (readBio.buf rb) <> 0 -> size <> 0 -> data = Ptr mem ->
  let cur := readBio.buf rb in
  let n := Nat.min (length (nonCopyCString data size)) (length (elems cur)) in
  exists rb',
    go_read_bio_read_body data size b
    = Returns (C_int (Z.of_nat n), firstn n (elems cur) ++ skipn n (nonCopyCString data size))
        (set_data (Some rb') (cleared b)) /\
    elems (readBio.buf rb') = skipn n (elems cur) /\
    scap (readBio.buf rb') <= scap cur /\
    readBio.eof rb' = readBio.eof rb /\
    readBio.release_buffers rb' = readBio.release_buffers rb /\
    readBio.conn rb' = readBio.conn rb.
Proof.
  intros Hl Hs Hd cur n. unfold go_read_bio_read_body, loadReadPtr,
    bioClearRetryFlags, X_BIO_clear_flags, on_ptr. go_step.
  rewrite Hb. cbn [is_nil orb]. apply Z.ltb_ge in Hsize. rewrite Hsize.
  cbn [bio_data set_flags set_data bio_flags]. rewrite Hb.
  apply Z.eqb_neq in Hl. rewrite Hl.
  apply Z.eqb_neq in Hs. rewrite Hs.
  replace (is_null data) with false by (rewrite Hd; reflexivity). cbn [orb].
  fold cur. unfold copy at 1. fold n.
  unfold slice_from. go_step.
  assert (Hn : (n <= length (elems cur))%nat) by (subst n; lia).
  replace ((0 <=? Z.of_nat n) && (Z.of_nat n <=? len (elems cur))) with true
    by (symmetry; apply andb_true_iff; split; apply Z.leb_le; unfold len; lia).
  rewrite Nat2Z.id, (copy_shift _ _ Hn).
  unfold reslice. go_step. unfold scap. cbn [elems spare].
  set (k := (length (elems cur) - n)%nat).
  set (arr := skipn n (elems cur) ++ skipn k (elems cur)).
  assert (Hlen : length arr = length (elems cur)).
  { subst arr k. rewrite length_app, !length_skipn. lia. }
  replace ((0 <=? Z.of_nat k) && (Z.of_nat k <=? len arr + len (spare cur)))
    with true
    by (symmetry; apply andb_true_iff; split; apply Z.leb_le; unfold len;
        rewrite ?Hlen; subst k; lia).
  rewrite Nat2Z.id.
  assert (Hfront : firstn k (arr ++ spare cur) = skipn n (elems cur)).
  { rewrite firstn_app.
    replace (k - length arr)%nat with 0%nat by (rewrite Hlen; subst k; lia).
    rewrite firstn_0, app_nil_r. subst arr k. apply firstn_shift. exact Hn. }
  rewrite Hfront.
  cbn [bio_data set_data bio_flags readBio.set_buf readBio.release_buffers
       readBio.buf].
  assert (Hcap : len (skipn n (elems cur)) + len (skipn k (arr ++ spare cur))
                 <= scap cur).
  { unfold scap, len. rewrite !length_skipn, length_app, Hlen. lia. }
  destruct (readBio.release_buffers rb && _) eqn:Erel.
  - apply andb_true_iff in Erel. destruct Erel as [_ Hz].
    unfold slen in Hz. cbn [elems] in Hz. apply Z.eqb_eq, len_zero_nil in Hz.
    eexists. split; [reflexivity|]. cbn. rewrite Hz.
    repeat split; auto. unfold scap, len. lia.
  - eexists. split; [reflexivity|]. cbn. repeat split; auto.
Qed.
End ReadRequest.

Lemma C_int_small (z : Z) : is_C_int z -> C_int z = z.
Proof.
  unfold is_C_int, INT_MIN, INT_MAX, C_int, wrap. intros H.
  change (2 ^ (32 - 1)) with 2147483648. change (2 ^ 32) with 4294967296.
  rewrite Z.mod_small by lia. lia.
Qed.

Lemma go_read_bio_read_eq (data : cptr) (size : Z) (b : BIO readBio.t)
      (r : Z * list byte) (b' : BIO readBio.t) :
  go_read_bio_read_body data size b = Returns r b' ->
  go_read_bio_read data size b = (r, b').
Proof.
  intros H. unfold go_read_bio_read, recover_mem. rewrite H. reflexivity.
Qed.

(** A read request on an adapter whose buffer is empty and whose stream
    has ended answers 0 and leaves the adapter as it is. *)
Lemma read_at_eof (data : cptr) (size : Z) (b : BIO readBio.t) (rb : readBio.t) :
  bio_data b = Some rb -> 0 <= size ->
  slen (readBio.buf rb) = 0 -> readBio.eof rb = true ->
  go_read_bio_read data size b
  = (0, nonCopyCString data size, set_data (Some rb) (cleared b)).
Proof.
  intros Hb Hs Hl He. apply go_read_bio_read_eq, read_empty_eof; assumption.
Qed.

Lemma read_at_eof_again (data : cptr) (size : Z) (rb : readBio.t) (k : nat) :
  0 <= size -> slen (readBio.buf rb) = 0 -> readBio.eof rb = true ->
  forall b, bio_data b = Some rb ->
  bio_data (Nat.iter k (fun x => snd (go_read_bio_read data size x)) b) = Some rb.
Proof.
  intros Hs Hl He. induction k as [|k IH]; intros b Hb; [exact Hb|].
  rewrite Nat.iter_succ, (read_at_eof data size _ rb (IH b Hb) Hs Hl He). reflexivity.
Qed.

(** C2. A read request with a valid destination of positive capacity on a
    registered read adapter has one of three results.  With a non-empty
    buffer it copies the first [min(size, len)] bytes of the buffer to the
    front of the destination, returns that count, removes exactly those
    bytes, and the retry flag is clear.  With an empty buffer and [eof] set
    it returns 0 with the retry flag clear and the adapter unchanged, and
    so does every later request.  With an empty buffer and [eof] unset it
    returns -1 with the retry flag set and the adapter unchanged. *)
Theorem read_request_three_way (b : BIO readBio.t) (rb : readBio.t)
        (mem : list byte) (size : Z) :
  bio_data b = Some rb ->
  len mem = size -> 0 < size <= INT_MAX ->
  let request := go_read_bio_read (Ptr mem) size in
  let '(rc, dst, b') := request b in
  let cur := readBio.buf rb in
  (slen cur <> 0 ->
     rc = Z.min size (slen cur) /\ 0 < rc /\
     dst = firstn (Z.to_nat rc) (elems cur) ++ skipn (Z.to_nat rc) mem /\
     rpending b' = skipn (Z.to_nat rc) (elems cur) /\
     reof b' = readBio.eof rb /\
     should_retry b' = false) /\
  (slen cur = 0 -> readBio.eof rb = true ->
     rc = 0 /\ should_retry b' = false /\ dst = mem /\ bio_data b' = Some rb /\
     forall k : nat,
       let bk := Nat.iter k (fun x => snd (request x)) b' in
       fst (fst (request bk)) = 0 /\ should_retry (snd (request bk)) = false) /\
  (slen cur = 0 -> readBio.eof rb = false ->
     rc = -1 /\ rc <> 0 /\ should_retry b' = true /\ dst = mem /\
     bio_data b' = Some rb).
Proof.
  intros Hb Hm Hs request. subst request.
  assert (Hsz : 0 <= size) by lia.
  assert (Hun : nonCopyCString (Ptr mem) size = mem).
  { unfold nonCopyCString, nonCopyGoBytes. rewrite <- Hm. unfold len.
    rewrite Nat2Z.id. apply firstn_all. }
  destruct (Z.eq_dec (slen (readBio.buf rb)) 0) as [Hl|Hl].
  - destruct (readBio.eof rb) eqn:He.
    + rewrite (read_at_eof (Ptr mem) size b rb Hb Hsz Hl He), Hun.
      split; [intros; contradiction|]. split; [|intros; discriminate].
      intros _ _. split; [reflexivity|]. split; [apply should_retry_cleared|].
      split; [reflexivity|]. split; [reflexivity|].
      intros k bk.
      assert (Hk : bio_data bk = Some rb).
      { apply read_at_eof_again; auto. }
      rewrite (read_at_eof (Ptr mem) size bk rb Hk Hsz Hl He). cbn [fst snd].
      split; [reflexivity | apply should_retry_cleared].
    + rewrite (go_read_bio_read_eq _ _ _ _ _
                 (read_empty_retry (Ptr mem) size b rb Hb Hsz Hl He)), Hun.
      split; [intros; contradiction|]. split; [intros; discriminate|].
      intros _ _. split; [reflexivity|]. split; [lia|].
      split; [apply should_retry_retrying|]. auto.
  - assert (Hsn : size <> 0) by lia.
    destruct (read_copy (Ptr mem) size b rb Hb Hsz mem Hl Hsn eq_refl)
      as (rb' & Hr & He & _ & Heof & _).
    rewrite Hun in Hr, He. rewrite (go_read_bio_read_eq _ _ _ _ _ Hr).
    split; [|split; intros; contradiction].
    intros _.
    set (n := Nat.min (length mem) (length (elems (readBio.buf rb)))) in *.
    assert (Hn : Z.of_nat n = Z.min size (slen (readBio.buf rb))).
    { subst n. unfold slen, len in *. lia. }
    assert (Hc : C_int (Z.of_nat n) = Z.of_nat n).
    { apply C_int_small. unfold is_C_int, INT_MIN, INT_MAX in *. lia. }
    rewrite Hc, Nat2Z.id. split; [exact Hn|].
    split; [unfold slen, len in *; lia|]. split; [reflexivity|].
    unfold rpending, reof. cbn [bio_data set_data].
    split; [exact He|]. split; [exact Heof|]. apply should_retry_cleared.
Qed.

Lemma read_request_three_way_witness :
  let b := read_bio_holding [x01; x02; x03] false in
  let mem := [x00; x00] in
  (exists rb, bio_data b = Some rb) /\ len mem = 2 /\ 0 < 2 <= INT_MAX /\
  let '(rc, dst, b') := go_read_bio_read (Ptr mem) 2 b in
  rc = 2 /\ dst = [x01; x02] /\ rpending b' = [x03] /\ should_retry b' = false.
Proof.
  intros b mem.
  assert (Hrange : 0 < 2 <= INT_MAX) by (unfold INT_MAX; lia).
  split; [eexists; reflexivity|]. split; [reflexivity|]. split; [exact Hrange|].
  pose proof (read_request_three_way b _ mem 2 eq_refl eq_refl Hrange) as H.
  cbv zeta in H.
  destruct (go_read_bio_read (Ptr mem) 2 b) as [[rc dst] b'].
  destruct H as [H _].
  destruct H as (H1 & _ & H3 & H4 & _ & H6); [discriminate|].
  subst rc. auto.
Defined.

(** With a non-empty buffer and a null destination the request still
    answers -1 when its size is negative. *)
Lemma read_null_negative_size :
  go_read_bio_read NULL (-1) (read_bio_holding [x01] false)
  = (-1, [], read_bio_holding [x01] false).
Proof. reflexivity. Qed.

(** The count is reported as a [C.int]: 2 GiB of buffered bytes are
    reported as a negative number. *)
Lemma read_query_two_gib :
  fst (fst (go_read_bio_read NULL 0 (read_bio_holding two_gib false)))
  = -2147483648.
Proof.
  pose (rb := {| readBio.buf := {| elems := two_gib; spare := [] |};
                 readBio.eof := false; readBio.release_buffers := false;
                 readBio.conn := None |}).
  assert (Hl : slen (readBio.buf rb) = 2147483648).
  { unfold slen, len, rb. cbn [elems readBio.buf]. unfold two_gib.
    rewrite repeat_length. lia. }
  assert (Hne : slen (readBio.buf rb) <> 0) by (rewrite Hl; discriminate).
  rewrite (go_read_bio_read_eq _ _ _ _ _
             (read_query NULL 0 (read_bio_holding two_gib false) rb eq_refl
                (Z.le_refl 0) Hne (or_introl eq_refl))).
  cbn [fst]. rewrite Hl. reflexivity.
Qed.

(** C10, as stated, fails twice over.  A null destination with a negative
    size is refused with -1 although the buffer holds a byte; and the count
    is returned as a [C.int], so that a buffer of 2 GiB, queried with a zero
    size, is reported as -2147483648. *)
Lemma read_query_not_the_count :
  fst (fst (go_read_bio_read NULL (-1) (read_bio_holding [x01] false))) = -1 /\
  rpending (read_bio_holding [x01] false) = [x01] /\
  fst (fst (go_read_bio_read NULL 0 (read_bio_holding two_gib false)))
  = -2147483648 /\
  len (rpending (read_bio_holding two_gib false)) = 2147483648.
Proof.
  split; [rewrite read_null_negative_size; reflexivity|].
  split; [reflexivity|]. split; [exact read_query_two_gib|].
  unfold rpending, len, two_gib. cbn [bio_data read_bio_holding readBio.buf elems].
  rewrite repeat_length. lia.
Qed.

(** C10, amended. When the buffer of a registered read adapter is not
    empty and the request has a zero size, or a null destination and a size
    that is not negative, the request returns the buffered byte count
    converted to a [C.int] (the count itself as long as it is at most
    2147483647) and leaves the adapter, hence its buffer, and the
    destination as they are. *)
Theorem read_query_leaves_buffer (b : BIO readBio.t) (rb : readBio.t)
        (data : cptr) (size : Z) :
  bio_data b = Some rb ->
  slen (readBio.buf rb) <> 0 ->
  0 <= size -> size = 0 \/ data = NULL ->
  let '(rc, dst, b') := go_read_bio_read data size b in
  rc = C_int (slen (readBio.buf rb)) /\
  (slen (readBio.buf rb) <= INT_MAX -> rc = slen (readBio.buf rb)) /\
  bio_data b' = Some rb /\
  rpending b' = rpending b /\
  dst = nonCopyCString data size.
Proof.
  intros Hb Hl Hs Hq.
  rewrite (go_read_bio_read_eq _ _ _ _ _ (read_query data size b rb Hb Hs Hl Hq)).
  split; [reflexivity|]. split.
  - intros Hmax. apply C_int_small. unfold is_C_int, INT_MIN, INT_MAX in *.
    unfold slen in *. pose proof (len_nonneg (elems (readBio.buf rb))). lia.
  - unfold rpending. cbn [bio_data set_data]. rewrite Hb. auto.
Qed.

Lemma read_query_leaves_buffer_witness :
  let b := read_bio_holding [x01; x02; x03] false in
  (exists rb, bio_data b = Some rb /\ slen (readBio.buf rb) <> 0) /\
  0 <= 5 /\ (5 = 0 \/ NULL = NULL) /\
  let '(rc, dst, b') := go_read_bio_read NULL 5 b in
  rc = 3 /\ rpending b' = [x01; x02; x03].
Proof.
  intros b.
  split; [eexists; split; [reflexivity | discriminate]|].
  split; [lia|]. split; [right; reflexivity|].
  pose proof (read_query_leaves_buffer b _ NULL 5 eq_refl
                ltac:(discriminate) ltac:(lia) (or_intror eq_refl)) as H.
  destruct (go_read_bio_read NULL 5 b) as [[rc dst] b'].
  destruct H as (H1 & _ & _ & H4 & _). split; [exact H1 | exact H4].
Defined.

(** C6, as stated, fails: a non-positive result of the engine's read is
    reported with the [io.EOF] error, not without an error. *)
Lemma anyBio_Read_reports_EOF :
  anyBio_Read (fun _ => (-1, [])) [x00] = (0, Some io_EOF, [x00]).
Proof. reflexivity. Qed.

(** C6, amended. Whenever the engine's read is called (the buffer is not
    empty) and returns a non-positive result, [Read] treats it as the end of
    the stream: it returns 0 bytes together with the error [io.EOF]. *)
Theorem anyBio_Read_end_of_stream (X_BIO_read : Z -> Z * list byte) (buf : list byte) :
  buf <> [] ->
  fst (X_BIO_read (C_int (len buf))) <= 0 ->
  fst (anyBio_Read X_BIO_read buf) = (0, Some io_EOF).
Proof.
  intros Hne Hr. unfold anyBio_Read.
  destruct (len buf =? 0) eqn:E.
  { apply Z.eqb_eq, len_zero_nil in E. contradiction. }
  destruct (X_BIO_read (C_int (len buf))) as [r stored]. cbn [fst] in Hr.
  apply Z.leb_le in Hr. rewrite Hr. reflexivity.
Qed.

Lemma anyBio_Read_end_of_stream_witness :
  [x00; x00] <> [] /\
  fst ((fun _ : Z => (0, @nil byte)) (C_int (len [x00; x00]))) <= 0 /\
  fst (anyBio_Read (fun _ => (0, [])) [x00; x00]) = (0, Some io_EOF).
Proof.
  split; [discriminate|]. split; [cbn; lia|].
  apply (anyBio_Read_end_of_stream (fun _ => (0, [])) [x00; x00]);
    [discriminate | cbn; lia].
Defined.

(** ** Faults *)

Lemma recover_spec {St : Type} (body : go St Z) (s : St) :
  match body s with
  | Returns rc s' => recover body s = (rc, s')
  | Panics _ s' => recover body s = (-1, s')
  end.
Proof. unfold recover. destruct (body s); reflexivity. Qed.

(** C9. Each of the four exported callbacks returns to the engine whatever
    happens in its body: when the body returns, its result; when the body
    panics, the error code -1, with the state the panic left.  Two such
    faults are the flush command on an adapter without connection, where the
    body panics on the nil interface, and on an adapter whose connection
    reports more bytes written than it was given, where the body panics on
    the slice bounds: the callback answers -1 to both. *)
Theorem callbacks_recover :
  (forall data size b,
      match go_write_bio_write_body data size b with
      | Returns rc b' => go_write_bio_write data size b = (rc, b')
      | Panics _ b' => go_write_bio_write data size b = (-1, b')
      end) /\
  (forall data size b,
      match go_read_bio_read_body data size b with
      | Returns r b' => go_read_bio_read data size b = (r, b')
      | Panics _ b' =>
          fst (fst (go_read_bio_read data size b)) = -1 /\
          snd (go_read_bio_read data size b) = b'
      end) /\
  (forall cmd b,
      match go_write_bio_ctrl_body cmd b with
      | Returns rc b' => go_write_bio_ctrl cmd b = (rc, b')
      | Panics _ b' => go_write_bio_ctrl cmd b = (-1, b')
      end) /\
  (forall cmd b,
      match go_read_bio_ctrl_body cmd b with
      | Returns rc b' => go_read_bio_ctrl cmd b = (rc, b')
      | Panics _ b' => go_read_bio_ctrl cmd b = (-1, b')
      end) /\
  (returned (go_write_bio_ctrl_body BIO_CTRL_FLUSH (write_bio_holding [x01] None))
   = None /\
   go_write_bio_ctrl BIO_CTRL_FLUSH (write_bio_holding [x01] None)
   = (-1, write_bio_holding [x01] None)) /\
  (returned (go_write_bio_ctrl_body BIO_CTRL_FLUSH
               (write_bio_holding [x01] (Some overreporting_conn))) = None /\
   fst (go_write_bio_ctrl BIO_CTRL_FLUSH
          (write_bio_holding [x01] (Some overreporting_conn))) = -1).
Proof.
  split; [|split; [|split; [|split; [|split]]]].
  - intros. apply recover_spec.
  - intros. unfold go_read_bio_read, recover_mem.
    destruct (go_read_bio_read_body data size b); auto.
  - intros. apply recover_spec.
  - intros. apply recover_spec.
  - split; reflexivity.
  - split; reflexivity.
Qed.

(** ** What a computation leaves alone *)

Lemma keeps_bind {St A B X : Type} (f : St -> X) (m : go St A) (k : A -> go St B) :
  keeps f m -> (forall a, keeps f (k a)) -> keeps f (bind m k).
Proof.
  intros Hm Hk s. unfold bind. specialize (Hm s).
  destruct (m s) as [a s'|msg s']; cbn [final] in *; [|exact Hm].
  rewrite Hk. exact Hm.
Qed.

Lemma keeps_pure {St A X : Type} (f : St -> X) (o : St -> outcome St A) :
  (forall s, final (o s) = s) -> keeps f o.
Proof. intros H s. rewrite H. reflexivity. Qed.

Ltac keeps_tac :=
  repeat first
    [ apply keeps_bind; [|intros]
    | apply keeps_pure; intros; reflexivity
    | match goal with
      | |- keeps _ (if ?c then _ else _) => destruct c
      | |- keeps _ (let (_, _) := ?p in _) => destruct p
      | |- keeps _ (match ?p with _ => _ end) => destruct p
      end ].

Lemma keeps_on_ptr {A R X : Type} (f : A -> X) (d : X) (m : go A R) :
  keeps f m ->
  keeps (fun b => match bio_data b with Some a => f a | None => d end) (on_ptr m).
Proof.
  intros Hm b. unfold on_ptr. destruct (bio_data b) as [a|] eqn:Hb.
  - specialize (Hm a). destruct (m a); cbn in *; exact Hm.
  - cbn. rewrite Hb. reflexivity.
Qed.

(** ** Filling the read buffer *)

(** No path through [ReadFromConnOnce], returning or not, writes [eof]. *)
Lemma ReadFromConnOnce_keeps_eof : keeps readBio.eof ReadFromConnOnce.
Proof.
  unfold ReadFromConnOnce, reserve_record, take_in, spare_range, reslice.
  keeps_tac; try (intros s; reflexivity).
  intros s. unfold rb_conn_Read_tail. destruct (readBio.conn s); reflexivity.
Qed.

Lemma go_read_bio_read_keeps_eof (data : cptr) (size : Z) :
  keeps reof (fun b => Returns (fst (go_read_bio_read data size b))
                         (snd (go_read_bio_read data size b))).
Proof.
  intros b. cbn [final]. unfold go_read_bio_read, recover_mem.
  destruct (bio_data b) as [rb|] eqn:Hb.
  2:{ rewrite (read_refused data size b (or_introl Hb)). reflexivity. }
  destruct (Z.lt_ge_cases size 0) as [Hs|Hs].
  { rewrite (read_refused data size b (or_intror Hs)). reflexivity. }
  destruct (Z.eq_dec (slen (readBio.buf rb)) 0) as [Hl|Hl].
  { destruct (readBio.eof rb) eqn:He.
    - rewrite (read_empty_eof data size b rb Hb Hs Hl He).
      unfold reof. cbn. rewrite Hb. auto.
    - rewrite (read_empty_retry data size b rb Hb Hs Hl He).
      unfold reof. cbn. rewrite Hb. auto. }
  destruct (Z.eq_dec size 0) as [Hz|Hz].
  { rewrite (read_query data size b rb Hb Hs Hl (or_introl Hz)).
    unfold reof. cbn. rewrite Hb. auto. }
  destruct data as [|mem].
  { rewrite (read_query NULL size b rb Hb Hs Hl (or_intror eq_refl)).
    unfold reof. cbn. rewrite Hb. auto. }
  destruct (read_copy (Ptr mem) size b rb Hb Hs mem Hl Hz eq_refl)
    as (rb' & Hr & _ & _ & He & _).
  rewrite Hr. unfold reof. cbn. rewrite Hb. exact He.
Qed.

Lemma firstn_length_app {A : Type} (l1 l2 : list A) :
  firstn (length l1) (l1 ++ l2) = l1.
Proof.
  rewrite firstn_app, Nat.sub_diag, firstn_all, firstn_0. apply app_nil_r.
Qed.

Lemma skipn_length_app {A : Type} (l1 l2 : list A) :
  skipn (length l1) (l1 ++ l2) = l2.
Proof.
  rewrite skipn_app, Nat.sub_diag, skipn_all, skipn_0. reflexivity.
Qed.

Lemma store_fits (region bytes : list byte) :
  (length bytes <= length region)%nat ->
  store region bytes = bytes ++ skipn (length bytes) region.
Proof.
  intros H. unfold store. apply firstn_all2.
  rewrite length_app, length_skipn. lia.
Qed.

Lemma copy_into_make (l : list byte) (c : Z) :
  fst (copy (elems (make (len l) c)) l) = l.
Proof.
  unfold make, copy. cbn [elems fst]. rewrite repeat_length. unfold len.
  rewrite Nat2Z.id, Nat.min_id, firstn_all.
  rewrite skipn_all2 by (rewrite repeat_length; lia). apply app_nil_r.
Qed.

Lemma len_spare_make (l c : Z) : 0 <= c - l -> len (spare (make l c)) = c - l.
Proof.
  intros H. unfold make, len. cbn [spare]. rewrite repeat_length. lia.
Qed.

(** The first critical section leaves the elements alone and ends with at
    least a record of spare capacity; it allocates only when there is
    less. *)
Lemma reserve_record_spec (rb : readBio.t) :
  exists rb1,
    reserve_record rb = Returns (readBio.buf rb1) rb1 /\
    elems (readBio.buf rb1) = elems (readBio.buf rb) /\
    SSLRecordSize <= len (spare (readBio.buf rb1)) /\
    (SSLRecordSize <= len (spare (readBio.buf rb)) -> rb1 = rb) /\
    readBio.eof rb1 = readBio.eof rb /\
    readBio.release_buffers rb1 = readBio.release_buffers rb /\
    readBio.conn rb1 = readBio.conn rb.
Proof.
  unfold reserve_record. go_step.
  destruct (scap (readBio.buf rb) <? slen (readBio.buf rb) + SSLRecordSize) eqn:E.
  - apply Z.ltb_lt in E.
    pose proof (copy_into_make (elems (readBio.buf rb))
                  (slen (readBio.buf rb) + SSLRecordSize)) as Hcopy.
    change (len (elems (readBio.buf rb))) with (slen (readBio.buf rb)) in Hcopy.
    destruct (copy _ _) as [arr k]. cbn [fst] in Hcopy. subst arr.
    eexists. split; [reflexivity|].
    cbn [readBio.buf readBio.set_buf readBio.eof readBio.release_buffers
         readBio.conn elems spare].
    split; [reflexivity|]. split.
    + rewrite len_spare_make; unfold SSLRecordSize; lia.
    + split; [|auto]. intros H. unfold scap, slen in E. lia.
  - apply Z.ltb_ge in E. exists rb. split; [reflexivity|].
    unfold scap, slen in E. repeat split; auto; lia.
Qed.

(** The read in the middle, from a connection that honours [io.Reader]. *)
Lemma rb_conn_Read_tail_spec (rb : readBio.t) (c : Conn) :
  readBio.conn rb = Some c -> reader_ok c ->
  let dst := spare (readBio.buf rb) in
  let r := on_read c (length (read_log c)) (len dst) in
  exists rb2,
    rb_conn_Read_tail rb = Returns (len (fst r), snd r) rb2 /\
    readBio.buf rb2 =
      {| elems := elems (readBio.buf rb);
         spare := fst r ++ skipn (length (fst r)) dst |} /\
    len (fst r) <= len dst /\
    readBio.eof rb2 = readBio.eof rb /\
    readBio.release_buffers rb2 = readBio.release_buffers rb /\
    readBio.conn rb2 =
      Some {| on_read := on_read c; on_write := on_write c;
              read_log := read_log c ++ [len dst];
              write_log := write_log c;
              received := received c ++ fst r;
              sent := sent c |}.
Proof.
  intros Hc Hok dst r.
  assert (Hr : len (fst r) <= len dst) by (apply Hok, len_nonneg).
  assert (Hn : (length (fst r) <= length dst)%nat) by (unfold len in Hr; lia).
  unfold rb_conn_Read_tail, Conn_Read. rewrite Hc. fold dst. fold r.
  eexists. split; [reflexivity|]. cbn.
  rewrite (store_fits _ _ Hn), (firstn_all2 (fst r)) by exact Hn. auto.
Qed.

(** The second critical section, when nobody touched the buffer since the
    first: the bytes the connection stored become elements. *)
Lemma take_in_spec (rb : readBio.t) (dst_slice : slice) (e chunk rest : list byte) :
  readBio.buf rb = {| elems := e; spare := chunk ++ rest |} ->
  slen dst_slice = len e ->
  exists rb3,
    take_in dst_slice (len chunk) rb = Returns tt rb3 /\
    elems (readBio.buf rb3) = e ++ chunk /\
    spare (readBio.buf rb3) = rest /\
    readBio.eof rb3 = readBio.eof rb /\
    readBio.release_buffers rb3 = readBio.release_buffers rb /\
    readBio.conn rb3 = readBio.conn rb.
Proof.
  intros Hbuf Hd. unfold take_in.
  destruct (0 <? len chunk) eqn:E.
  - go_step. rewrite Hbuf.
    replace (slen dst_slice =? slen {| elems := e; spare := chunk ++ rest |})
      with true by (symmetry; apply Z.eqb_eq; exact Hd).
    cbn [negb]. rewrite Hbuf.
    unfold reslice, scap, slen. cbn [elems spare]. go_step.
    replace ((0 <=? len e + len chunk) &&
             (len e + len chunk <=? len e + len (chunk ++ rest))) with true.
    2:{ symmetry. apply andb_true_iff. rewrite len_app.
        pose proof (len_nonneg e). pose proof (len_nonneg chunk).
        pose proof (len_nonneg rest). split; apply Z.leb_le; lia. }
    replace (Z.to_nat (len e + len chunk)) with (length (e ++ chunk))
      by (rewrite length_app; unfold len; lia).
    rewrite app_assoc, firstn_length_app, skipn_length_app.
    eexists. split; [reflexivity|]. cbn. auto.
  - apply Z.ltb_ge in E. pose proof (len_nonneg chunk).
    assert (chunk = []) by (apply len_zero_nil; lia). subst chunk.
    exists rb. split; [reflexivity|]. rewrite Hbuf, app_nil_r. cbn. auto.
Qed.

(** One [ReadFromConnOnce] over a connection that honours [io.Reader]. *)
Lemma ReadFromConnOnce_returns (rb : readBio.t) (c : Conn) :
  readBio.conn rb = Some c -> reader_ok c ->
  exists (dstlen : Z) (rb' : readBio.t),
    let r := on_read c (length (read_log c)) dstlen in
    ReadFromConnOnce rb = Returns (len (fst r), snd r) rb' /\
    SSLRecordSize <= dstlen /\
    (SSLRecordSize <= len (spare (readBio.buf rb)) ->
       dstlen = len (spare (readBio.buf rb))) /\
    len (fst r) <= dstlen /\
    elems (readBio.buf rb') = elems (readBio.buf rb) ++ fst r /\
    readBio.eof rb' = readBio.eof rb /\
    readBio.release_buffers rb' = readBio.release_buffers rb /\
    readBio.conn rb' =
      Some {| on_read := on_read c; on_write := on_write c;
              read_log := read_log c ++ [dstlen];
              write_log := write_log c;
              received := received c ++ fst r;
              sent := sent c |}.
Proof.
  intros Hc Hok.
  destruct (reserve_record_spec rb) as (rb1 & H1 & He1 & Hcap & Hsame & Heof1 & Hrel1 & Hc1).
  rewrite Hc in Hc1.
  destruct (rb_conn_Read_tail_spec rb1 c Hc1 Hok)
    as (rb2 & H2 & Hb2 & Hn & Heof2 & Hrel2 & Hc2).
  set (dstlen := len (spare (readBio.buf rb1))) in *.
  set (r := on_read c (length (read_log c)) dstlen) in *.
  assert (Hd : slen (readBio.buf rb1) = len (elems (readBio.buf rb1))) by reflexivity.
  destruct (take_in_spec rb2 (readBio.buf rb1) _ _ _ Hb2 Hd)
    as (rb3 & H3 & He3 & _ & Heof3 & Hrel3 & Hc3).
  exists dstlen, rb3. cbv zeta. fold r.
  split.
  { unfold ReadFromConnOnce. go_step. rewrite H1, H2, H3. reflexivity. }
  split; [exact Hcap|]. split.
  { intros H. subst dstlen. rewrite (Hsame H). reflexivity. }
  split; [exact Hn|].
  rewrite He3, He1, Heof3, Heof2, Heof1, Hrel3, Hrel2, Hrel1, Hc3, Hc2. auto.
Qed.

(** ** Sequences of calls on a read adapter *)

Lemma C_int_range (z : Z) : is_C_int (C_int z).
Proof.
  unfold is_C_int, INT_MIN, INT_MAX, C_int, wrap.
  change (2 ^ (32 - 1)) with 2147483648. change (2 ^ 32) with 4294967296.
  pose proof (Z.mod_pos_bound (z + 2147483648) 4294967296). lia.
Qed.

Lemma nonCopyCString_nothing (data : cptr) (size : Z) :
  size = 0 \/ data = NULL -> nonCopyCString data size = [].
Proof.
  unfold nonCopyCString, nonCopyGoBytes. intros [->| ->].
  - apply firstn_0.
  - apply firstn_nil.
Qed.

Lemma rgood_inv (b : BIO readBio.t) :
  rgood b ->
  exists rb c, bio_data b = Some rb /\ readBio.conn rb = Some c /\ reader_ok c /\
               rreceived b = received c /\ rpending b = elems (readBio.buf rb).
Proof.
  intros (rb & c & Hb & Hc & Hok). exists rb, c.
  unfold rreceived, rpending. rewrite Hb, Hc. auto.
Qed.

Lemma rgood_same (b b' : BIO readBio.t) (rb rb' : readBio.t) :
  rgood b -> bio_data b = Some rb -> bio_data b' = Some rb' ->
  readBio.conn rb' = readBio.conn rb -> rgood b'.
Proof.
  intros (rb0 & c & Hb0 & Hc & Hok) Hb Hb' Hcc.
  rewrite Hb in Hb0. inversion Hb0; subst rb0.
  exists rb', c. rewrite Hcc. auto.
Qed.

(** A read request hands the engine the front of the buffer and removes
    it; nothing is received meanwhile. *)
Lemma request_invariant (data : cptr) (size : Z) (b : BIO readBio.t) :
  rgood b -> is_C_int size ->
  let '(rc, dst, b') := go_read_bio_read data size b in
  rgood b' /\ rreceived b' = rreceived b /\
  firstn (Z.to_nat rc) dst ++ rpending b' = rpending b.
Proof.
  intros Hg Hsize.
  destruct (rgood_inv b Hg) as (rb & c & Hb & Hc & Hok & Hr & Hp).
  assert (Hkeep : forall f,
             rgood (set_data (Some rb) (set_flags f b)) /\
             rreceived (set_data (Some rb) (set_flags f b)) = rreceived b /\
             rpending (set_data (Some rb) (set_flags f b)) = rpending b).
  { intros f. split; [exists rb, c; auto|].
    unfold rreceived, rpending. cbn. rewrite Hb. auto. }
  destruct (Z.lt_ge_cases size 0) as [Hs|Hs].
  { rewrite (go_read_bio_read_eq _ _ _ _ _
               (read_refused data size b (or_intror Hs))). cbn. auto. }
  destruct (Z.eq_dec (slen (readBio.buf rb)) 0) as [Hl|Hl].
  { destruct (readBio.eof rb) eqn:He.
    - rewrite (go_read_bio_read_eq _ _ _ _ _
                 (read_empty_eof data size b rb Hb Hs Hl He)).
      destruct (Hkeep (bio_flags (cleared b))) as (? & ? & ?).
      cbn [Z.to_nat firstn app]. auto.
    - rewrite (go_read_bio_read_eq _ _ _ _ _
                 (read_empty_retry data size b rb Hb Hs Hl He)).
      destruct (Hkeep (bio_flags (retrying b))) as (? & ? & ?).
      cbn [Z.to_nat firstn app]. auto. }
  assert (Hquery : size = 0 \/ data = NULL ->
            let '(rc, dst, b') := go_read_bio_read data size b in
            rgood b' /\ rreceived b' = rreceived b /\
            firstn (Z.to_nat rc) dst ++ rpending b' = rpending b).
  { intros Hq.
    rewrite (go_read_bio_read_eq _ _ _ _ _ (read_query data size b rb Hb Hs Hl Hq)).
    rewrite (nonCopyCString_nothing data size Hq), firstn_nil.
    destruct (Hkeep (bio_flags (cleared b))) as (? & ? & ?). auto. }
  destruct (Z.eq_dec size 0) as [Hz|Hz]; [apply Hquery; auto|].
  destruct data as [|mem]; [apply Hquery; auto|]. clear Hquery.
  destruct (read_copy (Ptr mem) size b rb Hb Hs mem Hl Hz eq_refl)
    as (rb' & Hrd & He & _ & _ & _ & Hc').
  rewrite (go_read_bio_read_eq _ _ _ _ _ Hrd).
  set (n := Nat.min (length (nonCopyCString (Ptr mem) size))
              (length (elems (readBio.buf rb)))) in *.
  assert (Hn : Z.of_nat n <= size).
  { subst n. unfold nonCopyCString, nonCopyGoBytes. rewrite length_firstn. lia. }
  rewrite C_int_small
    by (unfold is_C_int, INT_MIN, INT_MAX in *; lia).
  rewrite Nat2Z.id.
  split; [|split].
  - apply (rgood_same b (set_data (Some rb') (cleared b)) rb rb' Hg Hb eq_refl Hc').
  - unfold rreceived. cbn [bio_data set_data]. rewrite Hb, Hc'. reflexivity.
  - unfold rpending. cbn [bio_data set_data]. rewrite Hb, He.
    assert (Hlen : length (firstn n (elems (readBio.buf rb))) = n)
      by (rewrite length_firstn; subst n; lia).
    rewrite <- Hlen at 1. rewrite firstn_length_app. apply firstn_skipn.
Qed.

(** Filling the buffer appends to it what the connection delivers. *)
Lemma fill_invariant (b : BIO readBio.t) :
  rgood b ->
  exists r b',
    on_ptr ReadFromConnOnce b = Returns r b' /\ rgood b' /\
    exists chunk,
      rreceived b' = rreceived b ++ chunk /\
      rpending b' = rpending b ++ chunk /\
      fst r = len chunk /\ reof b' = reof b.
Proof.
  intros Hg. destruct (rgood_inv b Hg) as (rb & c & Hb & Hc & Hok & Hr & Hp).
  destruct (ReadFromConnOnce_returns rb c Hc Hok)
    as (dstlen & rb' & H & _ & _ & _ & He & Heof & _ & Hc').
  unfold on_ptr. rewrite Hb, H. eexists _, _. split; [reflexivity|].
  split.
  { eexists rb', _. split; [reflexivity|]. split; [exact Hc'|].
    intros k cap. apply Hok. }
  eexists. unfold rreceived, rpending, reof. cbn [bio_data set_data].
  rewrite Hb, Hc, Hc', He, Heof. cbn [received fst]. auto.
Qed.

Lemma rstep_invariant (c : rcall) (b : BIO readBio.t) :
  rgood b ->
  exists r b',
    rstep c b = Returns r b' /\ rgood b' /\
    forall D, rreceived b = D ++ rpending b ->
              rreceived b' = (D ++ snd r) ++ rpending b'.
Proof.
  intros Hg. destruct c as [data size|cmd| |]; cbn [rstep].
  - pose proof (request_invariant data (C_int size) b Hg (C_int_range size)) as H.
    go_step. destruct (go_read_bio_read data (C_int size) b) as [[rc dst] b'].
    destruct H as (Hg' & Hr & Hp).
    eexists _, _. split; [reflexivity|]. split; [exact Hg'|].
    intros D HD. cbn [snd]. rewrite Hr, HD, <- Hp, app_assoc. reflexivity.
  - unfold go_read_bio_ctrl, go_read_bio_ctrl_body, readBioPending, loadReadPtr.
    go_step.
    assert (Hret : forall (rc : Z),
               exists r b', Returns (A := Z * list byte) (rc, []) b = Returns r b' /\
                 rgood b' /\
                 forall D, rreceived b = D ++ rpending b ->
                           rreceived b' = (D ++ snd r) ++ rpending b').
    { intros rc. eexists _, _. split; [reflexivity|]. split; [exact Hg|].
      intros D HD. cbn [snd]. rewrite app_nil_r. exact HD. }
    destruct (cmd =? BIO_CTRL_PENDING).
    { destruct (bio_data b); apply Hret. }
    destruct ((cmd =? BIO_CTRL_DUP) || (cmd =? BIO_CTRL_FLUSH)); apply Hret.
  - destruct (fill_invariant b Hg) as ([n err] & b' & H & Hg' & chunk & Hr & Hp & _).
    go_step. rewrite H. eexists _, _. split; [reflexivity|]. split; [exact Hg'|].
    intros D HD. cbn [snd]. rewrite Hr, Hp, HD, app_nil_r, app_assoc. reflexivity.
  - destruct (rgood_inv b Hg) as (rb & c & Hb & Hc & Hok & Hr & Hp).
    unfold on_ptr, MarkEOF. go_step. rewrite Hb.
    eexists _, _. split; [reflexivity|]. split.
    { eexists _, c. split; [reflexivity|]. auto. }
    intros D HD. unfold rreceived, rpending in *. cbn. rewrite Hb in HD.
    rewrite Hc in *. rewrite app_nil_r. exact HD.
Qed.

Lemma rrun_invariant (cs : list rcall) :
  forall b D, rgood b -> rreceived b = D ++ rpending b ->
  exists rs b',
    rrun cs b = Returns rs b' /\ rgood b' /\
    rreceived b' = (D ++ drained rs) ++ rpending b'.
Proof.
  induction cs as [|c cs IH]; intros b D Hg HD; cbn [rrun].
  - exists [], b. unfold drained. cbn. rewrite app_nil_r. auto.
  - destruct (rstep_invariant c b Hg) as (r & b1 & Hs & Hg1 & H1).
    destruct (IH b1 (D ++ snd r) Hg1 (H1 D HD)) as (rs & b2 & Hr & Hg2 & H2).
    go_step. rewrite Hs, Hr. exists (r :: rs), b2. split; [reflexivity|].
    split; [exact Hg2|]. rewrite H2. unfold drained. cbn [map concat].
    rewrite <- !app_assoc. reflexivity.
Qed.

Lemma scripted_conn_reader_ok (k : Z) (e : option error) (chunks : list (list byte)) :
  reader_ok (scripted_conn k e chunks).
Proof.
  intros i cap Hcap. cbn. destruct (nth_error chunks i); cbn.
  - unfold len. rewrite length_firstn. lia.
  - exact Hcap.
Qed.



(** C4, as stated, fails: when the connection signals the end of the
    stream, [ReadFromConnOnce] hands [io.EOF] to its caller and leaves the
    [eof] flag unset. *)
Lemma ReadFromConnOnce_at_end_of_stream :
  let o := on_ptr ReadFromConnOnce
             (new_read_bio false (Some (scripted_conn 0 None []))) in
  returned o = Some (0, Some io_EOF) /\ reof (final o) = false.
Proof. vm_compute. split; reflexivity. Qed.

(** C4, amended. [ReadFromConnOnce] reads from the connection exactly
    once.  The destination of that read is the spare capacity of the buffer,
    which by then is at least one record of 16384 bytes, and is the spare
    capacity the buffer already had when that was enough.  The count and the
    error it returns are those of the read; the bytes read are appended to
    the buffer, whose length grows by exactly the count.  It never writes
    [eof], whatever the read returns: the end of the stream is reported to
    the caller as the error, and the flag is set by [MarkEOF]. *)
Theorem ReadFromConnOnce_spec (rb : readBio.t) (c : Conn) :
  readBio.conn rb = Some c -> reader_ok c ->
  exists (n : Z) (err : option error) (rb' : readBio.t) (c' : Conn) (dstlen : Z),
    let r := on_read c (length (read_log c)) dstlen in
    ReadFromConnOnce rb = Returns (n, err) rb' /\
    readBio.conn rb' = Some c' /\
    read_log c' = read_log c ++ [dstlen] /\
    SSLRecordSize <= dstlen /\
    (SSLRecordSize <= len (spare (readBio.buf rb)) ->
       dstlen = len (spare (readBio.buf rb))) /\
    n = len (fst r) /\ err = snd r /\ 0 <= n <= dstlen /\
    received c' = received c ++ fst r /\
    elems (readBio.buf rb') = elems (readBio.buf rb) ++ fst r /\
    slen (readBio.buf rb') = slen (readBio.buf rb) + n /\
    readBio.eof rb' = readBio.eof rb /\
    readBio.eof (final (MarkEOF rb')) = true.
Proof.
  intros Hc Hok.
  destruct (ReadFromConnOnce_returns rb c Hc Hok)
    as (dstlen & rb' & H & Hcap & Hsame & Hn & He & Heof & _ & Hc').
  eexists _, _, rb', _, dstlen. cbv zeta.
  split; [exact H|]. split; [exact Hc'|]. cbn [read_log received].
  split; [reflexivity|]. split; [exact Hcap|]. split; [exact Hsame|].
  split; [reflexivity|]. split; [reflexivity|].
  split; [split; [apply len_nonneg | exact Hn]|].
  split; [reflexivity|]. split; [exact He|].
  split; [unfold slen; rewrite He, len_app; reflexivity|].
  split; [exact Heof | reflexivity].
Qed.

Lemma ReadFromConnOnce_spec_witness :
  let c := scripted_conn 0 None [[x01; x02]] in
  let rb := {| readBio.buf := nil_slice; readBio.eof := false;
               readBio.release_buffers := false; readBio.conn := Some c |} in
  readBio.conn rb = Some c /\ reader_ok c /\
  exists err rb',
    ReadFromConnOnce rb = Returns (2, err) rb' /\
    elems (readBio.buf rb') = [x01; x02] /\
    readBio.eof rb' = false.
Proof.
  intros c rb. split; [reflexivity|].
  split; [apply scripted_conn_reader_ok|].
  destruct (ReadFromConnOnce_spec rb c eq_refl (scripted_conn_reader_ok 0 None _))
    as (n & err & rb' & c' & dstlen & H & _ & _ & Hcap & _ & Hn & _ & _ & _
        & He & _ & Heof & _).
  assert (Hch : fst (on_read c (length (read_log c)) dstlen) = [x01; x02]).
  { cbn. apply firstn_all2. cbn. unfold SSLRecordSize in Hcap. lia. }
  rewrite Hch in Hn, He. subst n.
  exists err, rb'. split; [exact H|]. split; [exact He | exact Heof].
Defined.

(** ** The end-of-stream flag *)

(** A call either leaves [eof] as it was or sets it: only [MarkEOF] writes
    the flag, and it writes [true]. *)
Lemma rstep_eof (c : rcall) (b : BIO readBio.t) :
  reof (final (rstep c b)) = reof b \/
  (reof b = false /\ reof (final (rstep c b)) = true).
Proof.
  destruct c as [data size|cmd| |]; cbn [rstep].
  - left. go_step.
    pose proof (go_read_bio_read_keeps_eof data (C_int size) b) as H.
    cbn [final] in H.
    destruct (go_read_bio_read data (C_int size) b) as [[rc dst] b'].
    exact H.
  - left. unfold go_read_bio_ctrl, go_read_bio_ctrl_body, readBioPending,
      loadReadPtr. go_step.
    destruct (cmd =? BIO_CTRL_PENDING); [destruct (bio_data b); reflexivity|].
    destruct ((cmd =? BIO_CTRL_DUP) || (cmd =? BIO_CTRL_FLUSH)); reflexivity.
  - left.
    pose proof (keeps_on_ptr readBio.eof false ReadFromConnOnce
                  ReadFromConnOnce_keeps_eof b) as H.
    fold (reof b) in H. fold (reof (final (on_ptr ReadFromConnOnce b))) in H.
    go_step. destruct (on_ptr ReadFromConnOnce b) as [[n err] b'|msg b']; exact H.
  - unfold on_ptr, MarkEOF, reof. go_step.
    destruct (bio_data b) as [rb|] eqn:Hb; cbn; [|rewrite Hb; auto].
    destruct (readBio.eof rb); auto.
Qed.

(** C7. Over any sequence of calls on a read adapter (read requests,
    control queries, [ReadFromConnOnce], [MarkEOF], with any arguments and
    any behaviour of the connection, faults included) the [eof] flag is
    [false] for some time and then [true] for the rest: it goes from
    [false] to [true] at most once, and no call takes it back to
    [false]. *)
Theorem eof_is_sticky (cs : list rcall) (b : BIO readBio.t) :
  (exists i j, eof_history cs b = repeat false i ++ repeat true j) /\
  (forall c, reof b = true -> reof (final (rstep c b)) = true).
Proof.
  split.
  - revert b. induction cs as [|c cs IH]; intros b; cbn [eof_history].
    + destruct (reof b); [exists 0%nat, 1%nat | exists 1%nat, 0%nat]; reflexivity.
    + destruct (IH (final (rstep c b))) as (i & j & H).
      destruct (reof b) eqn:Hb.
      * exists 0%nat, (S j). cbn [repeat app]. f_equal. rewrite H.
        destruct i as [|i]; [reflexivity|]. exfalso.
        destruct cs; cbn [eof_history repeat app] in H; inversion H;
          destruct (rstep_eof c b) as [Hk|[Hk _]]; congruence.
      * exists (S i), j. cbn [repeat app]. rewrite H. reflexivity.
  - intros c Hb. destruct (rstep_eof c b) as [H|[H _]]; congruence.
Qed.

Lemma go_write_bio_write_spec_witness :
  let b := new_write_bio false None in
  fst (go_write_bio_write (Ptr [x01; x02]) 2 b) = 2 /\
  wpending (snd (go_write_bio_write (Ptr [x01; x02]) 2 b)) = [x01; x02].
Proof.
  intros b.
  destruct (go_write_bio_write_spec (Ptr [x01; x02]) 2 b) as (_ & _ & H).
  destruct (H _ [x01; x02] eq_refl eq_refl ltac:(lia)) as (H1 & _ & H3).
  split; [exact H1 | exact (H3 eq_refl)].
Defined.

Lemma eof_is_sticky_witness :
  let b := read_bio_holding [x01] true in
  reof b = true /\
  reof (final (rstep (Request (Ptr [x00]) 1) b)) = true /\
  exists i j, eof_history [Fill; Mark; Fill] b = repeat false i ++ repeat true j.
Proof.
  intros b. destruct (eof_is_sticky [Fill; Mark; Fill] b) as (Hshape & Hkeep).
  split; [reflexivity|]. split; [apply Hkeep; reflexivity | exact Hshape].
Defined.

(** The arithmetic of the scenario is that of a 21-byte message: any such
    message takes five flushes, of 5, 5, 5, 5 and 1 bytes. *)
Lemma twenty_one_bytes_take_five_flushes (m : list byte) :
  len m = 21 ->
  returned
    (wrun [Append m; Flush; Flush; Flush; Flush; WCtrl BIO_CTRL_WPENDING; Flush;
           WCtrl BIO_CTRL_WPENDING]
       (new_write_bio false (Some (scripted_conn 5 None []))))
  = Some [21; 5; 5; 5; 5; 1; 1; 0].
Proof.
  intros H. unfold len in H.
  do 21 (destruct m as [|? m]; [cbn [length] in H; lia|]).
  destruct m; [|cbn [length] in H; lia].
  vm_compute. reflexivity.
Qed.

(* ================================================================= *)
(** * More of the adapters *)

(** ** A BIO without adapter *)

(** X1. On a BIO whose token denotes no adapter every callback answers
    without a fault and leaves the BIO, stale flags included, as it is: the
    write and the read return
    -1; the write-side control returns 0 for the pending count and for the
    flush and 1 for a duplication; the read-side control returns 0 for the
    pending count and 1 for a flush or a duplication. *)
Theorem unregistered_bio_is_refused (flags : Z) (data : cptr) (size cmd : Z) :
  let wb := {| bio_flags := flags; bio_data := @None writeBio.t |} in
  let rb := {| bio_flags := flags; bio_data := @None readBio.t |} in
  go_write_bio_write data size wb = (-1, wb) /\
  go_write_bio_ctrl cmd wb = (if cmd =? BIO_CTRL_DUP then 1 else 0, wb) /\
  go_read_bio_read data size rb = (-1, nonCopyCString data size, rb) /\
  go_read_bio_ctrl cmd rb
  = (if (cmd =? BIO_CTRL_DUP) || (cmd =? BIO_CTRL_FLUSH) then 1 else 0, rb).
Proof.
  intros wb rb. split; [reflexivity|]. split; [|split].
  - unfold go_write_bio_ctrl, go_write_bio_ctrl_body. go_step.
    destruct (cmd =? BIO_CTRL_WPENDING) eqn:E1.
    { apply Z.eqb_eq in E1. subst cmd. reflexivity. }
    destruct (cmd =? BIO_CTRL_FLUSH) eqn:E2.
    { apply Z.eqb_eq in E2. subst cmd. reflexivity. }
    destruct (cmd =? BIO_CTRL_DUP); reflexivity.
  - apply go_read_bio_read_eq, read_refused. left. reflexivity.
  - unfold go_read_bio_ctrl, go_read_bio_ctrl_body. go_step.
    destruct (cmd =? BIO_CTRL_PENDING) eqn:E1.
    { apply Z.eqb_eq in E1. subst cmd. reflexivity. }
    destruct ((cmd =? BIO_CTRL_DUP) || (cmd =? BIO_CTRL_FLUSH)); reflexivity.
Qed.

(** ** What the callbacks leave alone *)

Lemma go_read_bio_read_cases (data : cptr) (size : Z) (b : BIO readBio.t) :
  go_read_bio_read data size b = (-1, nonCopyCString data size, b) \/
  exists rb rb' rc dst f,
    bio_data b = Some rb /\ 0 <= size /\
    go_read_bio_read data size b = (rc, dst, set_data (Some rb') (set_flags f b)) /\
    readBio.conn rb' = readBio.conn rb /\
    readBio.release_buffers rb' = readBio.release_buffers rb /\
    readBio.eof rb' = readBio.eof rb.
Proof.
  destruct (bio_data b) as [rb|] eqn:Hb.
  2:{ left. apply go_read_bio_read_eq, read_refused. auto. }
  destruct (Z.lt_ge_cases size 0) as [Hs|Hs].
  { left. apply go_read_bio_read_eq, read_refused. auto. }
  right. exists rb.
  destruct (Z.eq_dec (slen (readBio.buf rb)) 0) as [Hl|Hl].
  { destruct (readBio.eof rb) eqn:He.
    - exists rb. eexists _, _, _. split; [reflexivity|]. split; [exact Hs|].
      split; [|auto].
      apply go_read_bio_read_eq, (read_empty_eof data size b rb Hb Hs Hl He).
    - exists rb. eexists _, _, _. split; [reflexivity|]. split; [exact Hs|].
      split; [|auto].
      apply go_read_bio_read_eq, (read_empty_retry data size b rb Hb Hs Hl He). }
  assert (Hquery : size = 0 \/ data = NULL ->
            exists rb' rc dst f,
              Some rb = Some rb /\ 0 <= size /\
              go_read_bio_read data size b
              = (rc, dst, set_data (Some rb') (set_flags f b)) /\
              readBio.conn rb' = readBio.conn rb /\
              readBio.release_buffers rb' = readBio.release_buffers rb /\
              readBio.eof rb' = readBio.eof rb).
  { intros Hq. exists rb. eexists _, _, _. split; [reflexivity|].
    split; [exact Hs|]. split; [|auto].
    apply go_read_bio_read_eq, (read_query data size b rb Hb Hs Hl Hq). }
  destruct (Z.eq_dec size 0) as [Hz|Hz]; [apply Hquery; auto|].
  destruct data as [|mem]; [apply Hquery; auto|].
  destruct (read_copy (Ptr mem) size b rb Hb Hs mem Hl Hz eq_refl)
    as (rb' & Hr & _ & _ & He & Hrel & Hc).
  exists rb'. eexists _, _, _. split; [reflexivity|]. split; [exact Hs|].
  split; [apply go_read_bio_read_eq, Hr|]. auto.
Qed.

(** X2. The engine's callbacks never perform I/O: the write, the read, the
    read-side control and every write-side control but the flush leave the
    adapter's connection, with the log of the calls made on it, exactly as
    it was.  The controls that are not a flush change nothing at all. *)
Theorem callbacks_leave_connection :
  (forall data size b, wconn (snd (go_write_bio_write data size b)) = wconn b) /\
  (forall data size b, rconn (snd (go_read_bio_read data size b)) = rconn b) /\
  (forall cmd b, snd (go_read_bio_ctrl cmd b) = b) /\
  (forall cmd b,
      if cmd =? BIO_CTRL_FLUSH then True
      else snd (go_write_bio_ctrl cmd b) = b).
Proof.
  split; [|split; [|split]].
  - intros data size b. unfold go_write_bio_write. go_step.
    rewrite go_write_bio_write_body_returns.
    destruct (bio_data b) as [wb|] eqn:Hb; [|reflexivity].
    destruct data as [|mem]; [reflexivity|].
    destruct (size <? 0); [reflexivity|].
    unfold wconn. cbn. rewrite Hb. reflexivity.
  - intros data size b.
    destruct (go_read_bio_read_cases data size b)
      as [H|(rb & rb' & rc & dst & f & Hb & _ & H & Hc & _)];
      rewrite H; [reflexivity|].
    unfold rconn. cbn. rewrite Hb, Hc. reflexivity.
  - intros cmd b. unfold go_read_bio_ctrl, go_read_bio_ctrl_body,
      readBioPending, loadReadPtr. go_step.
    destruct (cmd =? BIO_CTRL_PENDING); [destruct (bio_data b); reflexivity|].
    destruct ((cmd =? BIO_CTRL_DUP) || (cmd =? BIO_CTRL_FLUSH)); reflexivity.
  - intros cmd b. destruct (cmd =? BIO_CTRL_FLUSH) eqn:E; [exact I|].
    unfold go_write_bio_ctrl, go_write_bio_ctrl_body, writeBioPending,
      loadWritePtr. go_step. rewrite E.
    destruct (cmd =? BIO_CTRL_WPENDING); [destruct (bio_data b); reflexivity|].
    destruct (cmd =? BIO_CTRL_DUP); reflexivity.
Qed.

(** ** The retry flags, bit by bit *)

Lemma retry_bits_cleared {A : Type} (b : BIO A) (a : option A) :
  retry_bits (set_data a (cleared b)) = 0 /\
  other_bits (set_data a (cleared b)) = other_bits b.
Proof.
  unfold retry_bits, other_bits, cleared. cbn [bio_flags set_flags set_data].
  rewrite <- !Z.land_assoc, Z.land_diag. split; [|reflexivity].
  replace (Z.land (Z.lnot (Z.lor BIO_FLAGS_RWS BIO_FLAGS_SHOULD_RETRY))
             (Z.lor BIO_FLAGS_RWS BIO_FLAGS_SHOULD_RETRY)) with 0 by reflexivity.
  apply Z.land_0_r.
Qed.

Lemma retry_bits_retrying {A : Type} (b : BIO A) (a : option A) :
  retry_bits (set_data a (retrying b))
  = Z.lor BIO_FLAGS_READ BIO_FLAGS_SHOULD_RETRY /\
  other_bits (set_data a (retrying b)) = other_bits b.
Proof.
  destruct (retry_bits_cleared b a) as [Hr Ho].
  unfold retry_bits, other_bits, retrying in *.
  cbn [bio_flags set_flags set_data] in *.
  rewrite !Z.land_lor_distr_l, Hr, Ho. split; [reflexivity|].
  replace (Z.land (Z.lor BIO_FLAGS_READ BIO_FLAGS_SHOULD_RETRY)
             (Z.lnot (Z.lor BIO_FLAGS_RWS BIO_FLAGS_SHOULD_RETRY)))
    with 0 by reflexivity.
  apply Z.lor_0_r.
Qed.

(** X3. A read request that is not refused leaves, of the four bits
    READ, WRITE, IO_SPECIAL and SHOULD_RETRY of the BIO, exactly READ and
    SHOULD_RETRY set when it asks the engine to retry (empty buffer, [eof]
    unset) and none of them otherwise, whatever they were before; a write
    that is not refused leaves none of them set.  Both leave every other
    flag bit as it was. *)
Theorem retry_flags_exact :
  (forall (b : BIO readBio.t) (rb : readBio.t) (data : cptr) (size : Z),
      bio_data b = Some rb -> 0 <= size ->
      let b' := snd (go_read_bio_read data size b) in
      retry_bits b'
      = (if (slen (readBio.buf rb) =? 0) && negb (readBio.eof rb)
         then Z.lor BIO_FLAGS_READ BIO_FLAGS_SHOULD_RETRY else 0) /\
      other_bits b' = other_bits b) /\
  (forall (b : BIO writeBio.t) (wb : writeBio.t) (mem : list byte) (size : Z),
      bio_data b = Some wb -> 0 <= size ->
      let b' := snd (go_write_bio_write (Ptr mem) size b) in
      retry_bits b' = 0 /\ other_bits b' = other_bits b).
Proof.
  split.
  - intros b rb data size Hb Hs b'. subst b'.
    destruct (Z.eq_dec (slen (readBio.buf rb)) 0) as [Hl|Hl].
    { rewrite Hl. cbn [Z.eqb andb]. destruct (readBio.eof rb) eqn:He; cbn [negb].
      - rewrite (go_read_bio_read_eq _ _ _ _ _
                   (read_empty_eof data size b rb Hb Hs Hl He)).
        apply retry_bits_cleared.
      - rewrite (go_read_bio_read_eq _ _ _ _ _
                   (read_empty_retry data size b rb Hb Hs Hl He)).
        apply retry_bits_retrying. }
    replace (slen (readBio.buf rb) =? 0) with false
      by (symmetry; apply Z.eqb_neq; exact Hl).
    cbn [andb].
    assert (Hquery : size = 0 \/ data = NULL ->
              retry_bits (snd (go_read_bio_read data size b)) = 0 /\
              other_bits (snd (go_read_bio_read data size b)) = other_bits b).
    { intros Hq.
      rewrite (go_read_bio_read_eq _ _ _ _ _ (read_query data size b rb Hb Hs Hl Hq)).
      apply retry_bits_cleared. }
    destruct (Z.eq_dec size 0) as [Hz|Hz]; [apply Hquery; auto|].
    destruct data as [|mem]; [apply Hquery; auto|].
    destruct (read_copy (Ptr mem) size b rb Hb Hs mem Hl Hz eq_refl)
      as (rb' & Hr & _).
    rewrite (go_read_bio_read_eq _ _ _ _ _ Hr). apply retry_bits_cleared.
  - intros b wb mem size Hb Hs b'. subst b'.
    unfold go_write_bio_write. go_step.
    rewrite go_write_bio_write_body_returns, Hb.
    replace (size <? 0) with false by (symmetry; apply Z.ltb_ge; exact Hs).
    exact (retry_bits_cleared b _).
Qed.

Lemma retry_flags_exact_witness :
  let b := {| bio_flags := 1030; bio_data := bio_data (read_bio_holding [] false) |} in
  (exists rb, bio_data b = Some rb) /\ 0 <= 4 /\
  retry_bits (snd (go_read_bio_read (Ptr [x00; x00; x00; x00]) 4 b)) = 9 /\
  other_bits (snd (go_read_bio_read (Ptr [x00; x00; x00; x00]) 4 b)) = 1024.
Proof.
  intros b. split; [eexists; reflexivity|]. split; [lia|].
  destruct retry_flags_exact as [H _].
  exact (H b _ (Ptr [x00; x00; x00; x00]) 4 eq_refl ltac:(lia)).
Defined.

(** ** The flush command *)

(** X4. The flush command on a non-empty buffer makes one [WriteToConn]:
    the bytes the connection took leave the front of the buffer whatever
    the connection reports, but the command returns their count only when
    the connection reports no error; with an error it returns 0, also when
    bytes were written. *)
Theorem flush_command_result (b : BIO writeBio.t) (wb : writeBio.t) (c : Conn) :
  bio_data b = Some wb -> writeBio.conn wb = Some c -> writer_ok c ->
  writeBio.buf wb <> [] ->
  let r := on_write c (length (write_log c)) (writeBio.buf wb) in
  let '(rc, b') := go_write_bio_ctrl BIO_CTRL_FLUSH b in
  rc = (if is_err (snd r) then 0 else C_long (fst r)) /\
  wpending b' = skipn (Z.to_nat (fst r)) (writeBio.buf wb) /\
  wsent b' = sent c ++ firstn (Z.to_nat (fst r)) (writeBio.buf wb) /\
  wwrites b' = len (write_log c) + 1.
Proof.
  intros Hb Hc Hok Hne r.
  destruct (WriteToConn_returns wb c Hc Hok Hne) as (wb' & Hw & Hbuf & _ & Hc').
  unfold Conn_Write in Hc'. cbn [snd] in Hc'.
  change (on_write c (length (write_log c)) (writeBio.buf wb)) with r in Hw, Hbuf, Hc' |- *.
  clearbody r. destruct r as [n err]. cbn [fst snd] in *.
  unfold go_write_bio_ctrl, go_write_bio_ctrl_body, writeBioFlush, loadWritePtr,
    on_ptr. go_step.
  change (BIO_CTRL_FLUSH =? BIO_CTRL_WPENDING) with false.
  change (BIO_CTRL_FLUSH =? BIO_CTRL_FLUSH) with true. cbv beta iota.
  rewrite Hb. cbv beta iota. rewrite Hb, Hw.
  assert (Hst : wpending (set_data (Some wb') b)
                = skipn (Z.to_nat n) (writeBio.buf wb) /\
                wsent (set_data (Some wb') b)
                = sent c ++ firstn (Z.to_nat n) (writeBio.buf wb) /\
                wwrites (set_data (Some wb') b) = len (write_log c) + 1).
  { unfold wpending, wsent, wwrites. cbn [bio_data set_data].
    rewrite Hc', Hbuf. cbn [sent write_log].
    split; [reflexivity|]. split; [reflexivity|].
    rewrite len_app. reflexivity. }
  destruct (is_err err); split; auto.
Qed.

Lemma flush_command_result_witness :
  let c := scripted_conn 2 (Some (net_error "short write")) [] in
  let b := write_bio_holding [x01; x02; x03] (Some c) in
  writer_ok c /\
  let '(rc, b') := go_write_bio_ctrl BIO_CTRL_FLUSH b in
  rc = 0 /\ wpending b' = [x03] /\ wsent b' = [x01; x02].
Proof.
  intros c b.
  assert (Hok : writer_ok c) by (apply scripted_conn_writer_ok; lia).
  split; [exact Hok|].
  pose proof (flush_command_result b _ c eq_refl eq_refl Hok ltac:(discriminate)) as H.
  cbv zeta in H.
  destruct (go_write_bio_ctrl BIO_CTRL_FLUSH b) as [rc b'].
  destruct H as (H1 & H2 & H3 & _). auto.
Defined.

(** ** Pending counts *)

Lemma wpending_query (b : BIO writeBio.t) :
  wgood b ->
  call (go_write_bio_ctrl BIO_CTRL_WPENDING) b
  = Returns (C_long (len (wpending b))) b.
Proof.
  intros Hg. destruct (wgood_inv b Hg) as (wb & c & Hb & _ & _ & _ & Hp).
  unfold call, go_write_bio_ctrl, go_write_bio_ctrl_body, writeBioPending,
    loadWritePtr. go_step.
  change (BIO_CTRL_WPENDING =? BIO_CTRL_WPENDING) with true. cbv beta iota.
  rewrite Hb, Hp. reflexivity.
Qed.

Lemma append_step (bytes : list byte) (b : BIO writeBio.t) :
  wgood b ->
  exists b',
    call (go_write_bio_write (Ptr bytes) (len bytes)) b = Returns (len bytes) b' /\
    wgood b' /\ wpending b' = wpending b ++ bytes /\ wsent b' = wsent b.
Proof.
  intros Hg. destruct (wgood_inv b Hg) as (wb & c & Hb & Hc & Hok & Hs & Hp).
  unfold call, go_write_bio_write. go_step.
  rewrite go_write_bio_write_body_returns, Hb.
  replace (len bytes <? 0) with false
    by (symmetry; apply Z.ltb_ge, len_nonneg).
  eexists. split; [reflexivity|]. split; [eexists _, c; cbn; auto|].
  unfold wpending, wsent. rewrite Hb. cbn. rewrite Hc.
  unfold len. rewrite Nat2Z.id, firstn_all. auto.
Qed.

(** X5. The pending-count command of the write side returns the number of
    buffered bytes (as a [C.long]) and follows the other calls exactly: an
    append of [k] bytes raises it by [k], and a flush that wrote [n] bytes
    lowers it by [n]. *)
Theorem write_pending_accounting (b : BIO writeBio.t) (bytes : list byte) :
  wgood b ->
  let p := len (wpending b) in
  let k := len bytes in
  exists n b',
    0 <= n <= p + k /\
    wrun [WCtrl BIO_CTRL_WPENDING; Append bytes; WCtrl BIO_CTRL_WPENDING;
          Flush; WCtrl BIO_CTRL_WPENDING] b
    = Returns [C_long p; k; C_long (p + k); n; C_long (p + k - n)] b'.
Proof.
  intros Hg p k.
  destruct (append_step bytes b Hg) as (b1 & H1 & Hg1 & Hp1 & _).
  destruct (on_ptr_WriteToConn b1 Hg1)
    as ([n err] & b2 & H2 & Hg2 & Hn & Hp2 & _).
  cbn [fst] in Hn, Hp2.
  assert (Hl1 : len (wpending b1) = p + k) by (rewrite Hp1, len_app; reflexivity).
  assert (Hl2 : len (wpending b2) = p + k - n).
  { rewrite Hp2. unfold len in *. rewrite length_skipn. lia. }
  exists n, b2. split; [lia|].
  cbn [wrun wstep]. unfold bind, ret.
  rewrite (wpending_query b Hg), H1, (wpending_query b1 Hg1), H2,
    (wpending_query b2 Hg2), Hl1, Hl2.
  reflexivity.
Qed.

Lemma write_pending_accounting_witness :
  let b := write_bio_holding [x01] (Some (scripted_conn 2 None [])) in
  wgood b /\
  exists b',
    wrun [WCtrl BIO_CTRL_WPENDING; Append [x02; x03]; WCtrl BIO_CTRL_WPENDING;
          Flush; WCtrl BIO_CTRL_WPENDING] b
    = Returns [1; 2; 3; 2; 1] b'.
Proof.
  intros b.
  assert (Hg : wgood b).
  { eexists _, _. split; [reflexivity|]. split; [reflexivity|].
    apply scripted_conn_writer_ok. lia. }
  split; [exact Hg|].
  destruct (write_pending_accounting b [x02; x03] Hg) as (n & b' & _ & H).
  assert (Hret : returned
                   (wrun [WCtrl BIO_CTRL_WPENDING; Append [x02; x03];
                          WCtrl BIO_CTRL_WPENDING; Flush; WCtrl BIO_CTRL_WPENDING] b)
                 = Some [1; 2; 3; 2; 1]) by (vm_compute; reflexivity).
  rewrite H in Hret. cbn [returned] in Hret.
  assert (Hn : n = 2) by (inversion Hret; reflexivity).
  subst n. exists b'. rewrite H. reflexivity.
Defined.

(** ** Faults of [WriteToConn] *)

(** X6. [WriteToConn] calls the connection only for a non-empty buffer: on
    an empty one it returns [(0, nil)] and touches nothing, even without a
    connection.  On a non-empty one it panics when the connection is nil,
    and when the connection reports a count that is negative or above the
    length of what it was given; in both cases the buffer keeps all its
    bytes, and in the second the one write has been made. *)
Theorem WriteToConn_faults (wb : writeBio.t) :
  (writeBio.buf wb = [] -> WriteToConn wb = Returns (0, None) wb) /\
  (writeBio.buf wb <> [] -> writeBio.conn wb = None ->
     exists msg, WriteToConn wb = Panics msg wb) /\
  (forall c,
      writeBio.buf wb <> [] -> writeBio.conn wb = Some c ->
      let n := fst (on_write c (length (write_log c)) (writeBio.buf wb)) in
      n < 0 \/ len (writeBio.buf wb) < n ->
      exists msg wb' c',
        WriteToConn wb = Panics msg wb' /\
        writeBio.buf wb' = writeBio.buf wb /\
        writeBio.conn wb' = Some c' /\
        write_log c' = write_log c ++ [writeBio.buf wb]).
Proof.
  split; [apply WriteToConn_empty|]. split.
  - intros Hne Hc. unfold WriteToConn, wb_conn_Write. go_step.
    destruct (len (writeBio.buf wb) =? 0) eqn:E.
    { apply Z.eqb_eq, len_zero_nil in E. contradiction. }
    rewrite Hc. eexists. reflexivity.
  - intros c Hne Hc n Hn. unfold WriteToConn, wb_conn_Write. go_step.
    destruct (len (writeBio.buf wb) =? 0) eqn:E.
    { apply Z.eqb_eq, len_zero_nil in E. contradiction. }
    rewrite Hc. unfold Conn_Write. fold n.
    destruct (on_write c (length (write_log c)) (writeBio.buf wb)) as [n0 err] eqn:Er.
    cbn [fst] in n. subst n.
    cbn [writeBio.buf writeBio.set_conn]. unfold slice_from. go_step.
    replace ((0 <=? n0) && (n0 <=? len (writeBio.buf wb))) with false.
    2:{ symmetry. apply andb_false_iff.
        destruct Hn; [left; apply Z.leb_gt | right; apply Z.leb_gt]; lia. }
    eexists _, _, _. split; [reflexivity|]. cbn. auto.
Qed.

Lemma WriteToConn_faults_witness :
  let wb := {| writeBio.buf := [x01]; writeBio.release_buffers := true;
               writeBio.conn := Some overreporting_conn |} in
  [x01] <> @nil byte /\
  exists msg wb' c',
    WriteToConn wb = Panics msg wb' /\
    writeBio.buf wb' = [x01] /\
    writeBio.conn wb' = Some c' /\ write_log c' = [[x01]].
Proof.
  intros wb. split; [discriminate|].
  destruct (WriteToConn_faults wb) as (_ & _ & H).
  exact (H overreporting_conn ltac:(discriminate) eq_refl
           ltac:(right; cbn; lia)).
Defined.

(** ** An append during a flush *)

Lemma WriteToConn_parts (wb : writeBio.t) :
  WriteToConn wb = WriteToConn_in_parts wb.
Proof.
  unfold WriteToConn, WriteToConn_in_parts, WriteToConn_write,
    WriteToConn_subtract. go_step.
  destruct (len (writeBio.buf wb) =? 0); [reflexivity|].
  destruct (wb_conn_Write (writeBio.buf wb) wb) as [[n err] wb1|msg wb1];
    [|reflexivity].
  unfold slice_from. go_step.
  destruct ((0 <=? n) && (n <=? len (writeBio.buf wb1))); [|reflexivity].
  destruct (copy (writeBio.buf wb1) (skipn (Z.to_nat n) (writeBio.buf wb1)))
    as [arr k].
  unfold slice_upto. go_step.
  destruct ((0 <=? k) && (k <=? len arr)); [|reflexivity].
  destruct (writeBio.release_buffers
              (writeBio.set_buf (firstn (Z.to_nat k) arr) wb1) &&
            (len (writeBio.buf
                    (writeBio.set_buf (firstn (Z.to_nat k) arr) wb1)) =? 0));
    reflexivity.
Qed.

Lemma WriteToConn_subtract_spec (n : Z) (wb : writeBio.t) :
  0 <= n <= len (writeBio.buf wb) ->
  exists wb',
    WriteToConn_subtract n wb = Returns tt wb' /\
    writeBio.buf wb' = skipn (Z.to_nat n) (writeBio.buf wb) /\
    writeBio.release_buffers wb' = writeBio.release_buffers wb /\
    writeBio.conn wb' = writeBio.conn wb.
Proof.
  intros Hr. unfold WriteToConn_subtract, slice_from. go_step.
  replace ((0 <=? n) && (n <=? len (writeBio.buf wb))) with true
    by (symmetry; apply andb_true_iff; split; apply Z.leb_le; lia).
  assert (Hn : (Z.to_nat n <= length (writeBio.buf wb))%nat) by (unfold len in Hr; lia).
  rewrite (copy_shift _ _ Hn).
  unfold slice_upto. go_step.
  set (k := Z.of_nat (length (writeBio.buf wb) - Z.to_nat n)).
  set (arr := skipn (Z.to_nat n) (writeBio.buf wb) ++ _).
  assert (Hk : (0 <=? k) && (k <=? len arr) = true).
  { apply andb_true_iff; split; apply Z.leb_le; subst k arr; [lia|].
    unfold len. rewrite length_app, !length_skipn. lia. }
  rewrite Hk.
  assert (Hhead : firstn (Z.to_nat k) arr = skipn (Z.to_nat n) (writeBio.buf wb)).
  { subst k arr. rewrite Nat2Z.id. apply firstn_shift. exact Hn. }
  rewrite Hhead.
  cbn [writeBio.buf writeBio.release_buffers writeBio.set_buf].
  destruct (writeBio.release_buffers wb &&
            (len (skipn (Z.to_nat n) (writeBio.buf wb)) =? 0)) eqn:Erel.
  - apply andb_true_iff in Erel. destruct Erel as [_ Hz].
    apply Z.eqb_eq, len_zero_nil in Hz.
    eexists. split; [reflexivity|]. cbn. rewrite Hz. auto.
  - eexists. split; [reflexivity|]. cbn. auto.
Qed.

(** X7. [WriteToConn] is its write followed by its subtraction, and an
    append that the engine makes between the two is not lost: the
    subtraction removes from the buffer as it then is the bytes the
    connection took, which are a prefix of the buffer as it was, and the
    appended bytes stay behind the unwritten ones. *)
Theorem append_during_flush (bytes : list byte) (b : BIO writeBio.t) :
  wgood b ->
  (forall wb, WriteToConn wb = WriteToConn_in_parts wb) /\
  exists n err b',
    WriteToConn_overlapped bytes b = Returns (n, err, len bytes) b' /\
    0 <= n <= len (wpending b) /\
    wsent b' = wsent b ++ firstn (Z.to_nat n) (wpending b) /\
    wpending b' = skipn (Z.to_nat n) (wpending b) ++ bytes.
Proof.
  intros Hg. split; [exact WriteToConn_parts|].
  destruct (wgood_inv b Hg) as (wb & c & Hb & Hc & Hok & Hs & Hp).
  unfold WriteToConn_overlapped, on_ptr at 1, WriteToConn_write, wb_conn_Write.
  go_step. rewrite Hb.
  destruct (len (writeBio.buf wb) =? 0) eqn:E.
  - apply Z.eqb_eq, len_zero_nil in E.
    assert (Hg0 : wgood (set_data (Some wb) b)) by (exists wb, c; auto).
    destruct (append_step bytes _ Hg0) as (b1 & H1 & _ & Hp1 & Hs1).
    unfold call in H1. rewrite H1.
    exists 0, None, b1. split; [reflexivity|].
    rewrite Hp, E, Hs1, Hp1. unfold wsent, wpending. cbn. rewrite Hc, E.
    cbn. rewrite app_nil_r. repeat split; auto; reflexivity.
  - rewrite Hc. unfold Conn_Write.
    destruct (on_write c (length (write_log c)) (writeBio.buf wb)) as [n err] eqn:Er.
    assert (Hn : 0 <= n <= len (writeBio.buf wb)).
    { pose proof (Hok (length (write_log c)) (writeBio.buf wb)) as H.
      rewrite Er in H. exact H. }
    cbn [fst].
    set (c1 := {| on_read := on_read c; on_write := on_write c;
                  read_log := read_log c;
                  write_log := write_log c ++ [writeBio.buf wb];
                  received := received c;
                  sent := sent c ++ firstn (Z.to_nat n) (writeBio.buf wb) |}).
    set (b0 := set_data (Some (writeBio.set_conn (Some c1) wb)) b).
    assert (Hg0 : wgood b0).
    { exists (writeBio.set_conn (Some c1) wb), c1.
      split; [reflexivity|]. split; [reflexivity|]. intros i q. apply Hok. }
    destruct (append_step bytes b0 Hg0) as (b1 & H1 & Hg1 & Hp1 & Hs1).
    unfold call in H1. rewrite H1.
    destruct (wgood_inv b1 Hg1) as (wb1 & c1' & Hb1 & Hc1 & _ & Hs1' & Hp1').
    assert (Hn1 : 0 <= n <= len (writeBio.buf wb1)).
    { rewrite <- Hp1', Hp1, len_app. pose proof (len_nonneg bytes).
      unfold wpending, b0. cbn. lia. }
    destruct (WriteToConn_subtract_spec n wb1 Hn1) as (wb2 & H2 & Hb2 & _ & Hc2).
    unfold on_ptr. rewrite Hb1, H2.
    exists n, err, (set_data (Some wb2) b1). split; [reflexivity|].
    split; [rewrite Hp; exact Hn|].
    split.
    + unfold wsent at 1. cbn [bio_data set_data option_map].
      rewrite Hc2, Hc1, <- Hs1', Hs1, Hp, Hs. reflexivity.
    + unfold wpending at 1. cbn [bio_data set_data].
      rewrite Hb2, <- Hp1', Hp1, Hp.
      change (wpending b0) with (writeBio.buf wb).
      rewrite skipn_app.
      replace (Z.to_nat n - length (writeBio.buf wb))%nat with 0%nat
        by (unfold len in Hn; lia).
      reflexivity.
Qed.

Lemma append_during_flush_witness :
  let b := write_bio_holding [x01; x02; x03] (Some (scripted_conn 2 None [])) in
  wgood b /\
  exists err b',
    WriteToConn_overlapped [x04] b = Returns (2, err, 1) b' /\
    wsent b' = [x01; x02] /\ wpending b' = [x03; x04].
Proof.
  intros b.
  assert (Hg : wgood b).
  { eexists _, _. split; [reflexivity|]. split; [reflexivity|].
    apply scripted_conn_writer_ok. lia. }
  split; [exact Hg|].
  destruct (append_during_flush [x04] b Hg) as (_ & n & err & b' & H & _ & Hs & Hp).
  assert (Hret : returned (WriteToConn_overlapped [x04] b) = Some (2, None, 1))
    by (vm_compute; reflexivity).
  rewrite H in Hret. cbn [returned] in Hret.
  assert (Hn : n = 2) by (inversion Hret; reflexivity).
  subst n. exists err, b'. auto.
Defined.

(** ** The buffer after a read request *)

Lemma skipn_shift (l tail : list byte) (n : nat) :
  (n <= length l)%nat ->
  skipn (length l - n) ((skipn n l ++ skipn (length l - n) l) ++ tail)
  = skipn (length l - n) l ++ tail.
Proof.
  intros Hn. rewrite <- app_assoc.
  replace (length l - n)%nat with (length (skipn n l)) at 1
    by (rewrite length_skipn; reflexivity).
  apply skipn_length_app.
Qed.

(** The copying case of the read callback, with the slice it leaves. *)
Lemma read_copy_exact (size : Z) (b : BIO readBio.t) (rb : readBio.t)
      (mem : list byte) :
  bio_data b = Some rb -> 0 <= size ->
  slen (readBio.buf rb) <> 0 -> size <> 0 ->
  let cur := readBio.buf rb in
  let n := Nat.min (length (nonCopyCString (Ptr mem) size)) (length (elems cur)) in
  let new :=
    if readBio.release_buffers rb && (n =? length (elems cur))%nat then nil_slice
    else {| elems := skipn n (elems cur);
            spare := skipn (length (elems cur) - n) (elems cur) ++ spare cur |} in
  go_read_bio_read_body (Ptr mem) size b
  = Returns (C_int (Z.of_nat n),
             firstn n (elems cur) ++ skipn n (nonCopyCString (Ptr mem) size))
      (set_data (Some (readBio.set_buf new rb)) (cleared b)).
Proof.
  intros Hb Hsize Hl Hs cur n new. unfold go_read_bio_read_body, loadReadPtr,
    bioClearRetryFlags, X_BIO_clear_flags, on_ptr. go_step.
  rewrite Hb. cbn [is_nil orb]. apply Z.ltb_ge in Hsize. rewrite Hsize.
  cbn [bio_data set_flags set_data bio_flags]. rewrite Hb.
  apply Z.eqb_neq in Hl. rewrite Hl.
  apply Z.eqb_neq in Hs. rewrite Hs. cbn [is_null orb].
  fold cur. unfold copy at 1. fold n.
  unfold slice_from. go_step.
  assert (Hn : (n <= length (elems cur))%nat) by (subst n; lia).
  replace ((0 <=? Z.of_nat n) && (Z.of_nat n <=? len (elems cur))) with true
    by (symmetry; apply andb_true_iff; split; apply Z.leb_le; unfold len; lia).
  rewrite Nat2Z.id, (copy_shift _ _ Hn).
  unfold reslice. go_step. unfold scap. cbn [elems spare].
  set (k := (length (elems cur) - n)%nat).
  set (arr := skipn n (elems cur) ++ skipn k (elems cur)).
  assert (Hlen : length arr = length (elems cur)).
  { subst arr k. rewrite length_app, !length_skipn. lia. }
  replace ((0 <=? Z.of_nat k) && (Z.of_nat k <=? len arr + len (spare cur)))
    with true
    by (symmetry; apply andb_true_iff; split; apply Z.leb_le; unfold len;
        rewrite ?Hlen; subst k; lia).
  rewrite Nat2Z.id.
  assert (Hfront : firstn k (arr ++ spare cur) = skipn n (elems cur)).
  { rewrite firstn_app.
    replace (k - length arr)%nat with 0%nat by (rewrite Hlen; subst k; lia).
    rewrite firstn_0, app_nil_r. subst arr k. apply firstn_shift. exact Hn. }
  assert (Hback : skipn k (arr ++ spare cur) = skipn k (elems cur) ++ spare cur).
  { subst arr k. apply skipn_shift. exact Hn. }
  rewrite Hfront, Hback.
  cbn [bio_data set_data bio_flags readBio.set_buf readBio.release_buffers
       readBio.buf].
  assert (Hz : (slen {| elems := skipn n (elems cur);
                        spare := skipn k (elems cur) ++ spare cur |} =? 0)
               = (n =? length (elems cur))%nat).
  { unfold slen, len. cbn [elems]. rewrite length_skipn.
    destruct (Nat.eqb_spec n (length (elems cur))) as [He|He].
    - apply Z.eqb_eq. lia.
    - apply Z.eqb_neq. lia. }
  rewrite Hz. subst new. fold k.
  destruct (readBio.release_buffers rb && (n =? length (elems cur))%nat);
    reflexivity.
Qed.

(** X8. A read request that copies bytes out keeps the backing array of
    the buffer, so the capacity stays what it was, unless the adapter was
    made with [release_buffers] and the request takes the last byte: then
    the buffer becomes the nil slice, of capacity 0. *)
Theorem request_keeps_or_releases (b : BIO readBio.t) (rb : readBio.t)
        (mem : list byte) (size : Z) :
  bio_data b = Some rb ->
  len mem = size -> 0 < size ->
  slen (readBio.buf rb) <> 0 ->
  let b' := snd (go_read_bio_read (Ptr mem) size b) in
  if readBio.release_buffers rb && (slen (readBio.buf rb) <=? size)
  then option_map readBio.buf (bio_data b') = Some nil_slice
  else rcap b' = rcap b /\
       rpending b' = skipn (Z.to_nat size) (rpending b).
Proof.
  intros Hb Hm Hs Hl b'. subst b'.
  assert (Hun : nonCopyCString (Ptr mem) size = mem).
  { unfold nonCopyCString, nonCopyGoBytes. rewrite <- Hm. unfold len.
    rewrite Nat2Z.id. apply firstn_all. }
  pose proof (read_copy_exact size b rb mem Hb ltac:(lia) Hl ltac:(lia)) as H.
  cbv zeta in H. rewrite Hun in H.
  rewrite (go_read_bio_read_eq _ _ _ _ _ H). cbn [snd].
  set (e := elems (readBio.buf rb)) in *.
  set (n := Nat.min (length mem) (length e)) in *.
  assert (Hcond : (n =? length e)%nat = (slen (readBio.buf rb) <=? size)).
  { unfold slen, len in *. fold e.
    destruct (Nat.eqb_spec n (length e)); symmetry;
      [apply Z.leb_le | apply Z.leb_gt]; lia. }
  rewrite Hcond.
  destruct (readBio.release_buffers rb && (slen (readBio.buf rb) <=? size)) eqn:E.
  - reflexivity.
  - unfold rcap, rpending. cbn [bio_data set_data readBio.buf readBio.set_buf elems].
    rewrite Hb. fold e. unfold scap, len. cbn [elems spare].
    rewrite !length_skipn, length_app, length_skipn. fold e.
    split; [subst n; lia|].
    destruct (Z.leb_spec (slen (readBio.buf rb)) size) as [Hle|Hgt].
    + unfold slen, len in Hle. fold e in Hle.
      unfold len in Hm. rewrite !skipn_all2 by (subst n; lia). reflexivity.
    + unfold slen, len in Hgt. fold e in Hgt.
      unfold len in Hm. replace n with (Z.to_nat size) by (subst n; lia).
      reflexivity.
Qed.

Lemma request_keeps_or_releases_witness :
  let b := read_bio_over [x01; x02; x03] true None in
  (exists rb, bio_data b = Some rb /\ slen (readBio.buf rb) <> 0) /\
  len [x00; x00; x00] = 3 /\ 0 < 3 /\
  option_map readBio.buf (bio_data (snd (go_read_bio_read (Ptr [x00; x00; x00]) 3 b)))
  = Some nil_slice.
Proof.
  intros b. split; [eexists; split; [reflexivity | discriminate]|].
  split; [reflexivity|]. split; [lia|].
  exact (request_keeps_or_releases b _ [x00; x00; x00] 3 eq_refl eq_refl
           ltac:(lia) ltac:(discriminate)).
Defined.

(** X9. The end of the stream is reported only once the buffer is drained:
    on a non-empty buffer a request whose destination holds all of it
    returns all the buffered bytes, whether or not [eof] is set, and only
    the request after it returns 0 (if [eof] is set) or asks to retry (if it
    is not). *)
Theorem drain_then_end_of_stream (b : BIO readBio.t) (rb : readBio.t)
        (mem : list byte) (size : Z) :
  bio_data b = Some rb ->
  len mem = size -> size <= INT_MAX ->
  rpending b <> [] -> len (rpending b) <= size ->
  let '(rc, dst, b1) := go_read_bio_read (Ptr mem) size b in
  let '(rc2, _, b2) := go_read_bio_read (Ptr mem) size b1 in
  rc = len (rpending b) /\
  firstn (Z.to_nat rc) dst = rpending b /\
  rpending b1 = [] /\
  (if readBio.eof rb then rc2 = 0 /\ should_retry b2 = false
   else rc2 = -1 /\ should_retry b2 = true).
Proof.
  intros Hb Hm Hmax Hne Hle.
  assert (Hp : rpending b = elems (readBio.buf rb)) by (unfold rpending; rewrite Hb; reflexivity).
  rewrite Hp in *. set (e := elems (readBio.buf rb)) in *.
  assert (Hl : slen (readBio.buf rb) <> 0).
  { unfold slen. fold e. intros H. apply len_zero_nil in H. contradiction. }
  assert (Hpos : 0 < len e).
  { pose proof (len_nonneg e). unfold slen in Hl. fold e in Hl. lia. }
  assert (Hun : nonCopyCString (Ptr mem) size = mem).
  { unfold nonCopyCString, nonCopyGoBytes. rewrite <- Hm. unfold len.
    rewrite Nat2Z.id. apply firstn_all. }
  pose proof (read_copy_exact size b rb mem Hb ltac:(lia) Hl ltac:(lia)) as H.
  cbv zeta in H. rewrite Hun in H. fold e in H.
  replace (Nat.min (length mem) (length e)) with (length e) in H
    by (unfold len in *; lia).
  rewrite Nat.eqb_refl, Nat.sub_diag, skipn_all, firstn_all in H.
  rewrite (go_read_bio_read_eq _ _ _ _ _ H).
  rewrite C_int_small
    by (unfold is_C_int, INT_MIN, INT_MAX, len in *; lia).
  set (new := if readBio.release_buffers rb && true then nil_slice
              else {| elems := []; spare := skipn 0 e ++ spare (readBio.buf rb) |}) in *.
  assert (Hnew : elems new = []) by (subst new; destruct (readBio.release_buffers rb); reflexivity).
  set (rb1 := readBio.set_buf new rb).
  set (b1 := set_data (Some rb1) (cleared b)).
  assert (Hb1 : bio_data b1 = Some rb1) by reflexivity.
  assert (Hl1 : slen (readBio.buf rb1) = 0) by (unfold slen; cbn; rewrite Hnew; reflexivity).
  assert (Hs : 0 <= size) by lia.
  destruct (readBio.eof rb) eqn:He.
  - rewrite (go_read_bio_read_eq _ _ _ _ _
               (read_empty_eof (Ptr mem) size b1 rb1 Hb1 Hs Hl1 He)).
    rewrite Nat2Z.id, firstn_length_app.
    unfold rpending. cbn [bio_data b1 set_data rb1 readBio.buf readBio.set_buf].
    repeat split; auto. apply should_retry_cleared.
  - rewrite (go_read_bio_read_eq _ _ _ _ _
               (read_empty_retry (Ptr mem) size b1 rb1 Hb1 Hs Hl1 He)).
    rewrite Nat2Z.id, firstn_length_app.
    unfold rpending. cbn [bio_data b1 set_data rb1 readBio.buf readBio.set_buf].
    repeat split; auto. apply should_retry_retrying.
Qed.

Lemma drain_then_end_of_stream_witness :
  let b := read_bio_holding [x01; x02] true in
  let mem := [x00; x00; x00] in
  (exists rb, bio_data b = Some rb) /\ len mem = 3 /\ 3 <= INT_MAX /\
  rpending b <> [] /\ len (rpending b) <= 3 /\
  let '(rc, dst, b1) := go_read_bio_read (Ptr mem) 3 b in
  let '(rc2, _, b2) := go_read_bio_read (Ptr mem) 3 b1 in
  rc = 2 /\ rc2 = 0.
Proof.
  intros b mem.
  assert (Hmax : 3 <= INT_MAX) by (unfold INT_MAX; lia).
  assert (Hle : len (rpending b) <= 3) by (cbn; lia).
  split; [eexists; reflexivity|]. split; [reflexivity|]. split; [exact Hmax|].
  split; [discriminate|]. split; [exact Hle|].
  pose proof (drain_then_end_of_stream b _ mem 3 eq_refl eq_refl Hmax
                ltac:(discriminate) Hle) as H.
  destruct (go_read_bio_read (Ptr mem) 3 b) as [[rc dst] b1].
  destruct (go_read_bio_read (Ptr mem) 3 b1) as [[rc2 dst2] b2].
  destruct H as (H1 & _ & _ & H4). cbn in H4. destruct H4 as [H4 _].
  split; [exact H1 | exact H4].
Defined.

(** ** The capacity [ReadFromConnOnce] reserves *)

Lemma length_store (region bytes : list byte) :
  length (store region bytes) = length region.
Proof.
  unfold store. rewrite length_firstn, length_app, length_skipn. lia.
Qed.

(** The first critical section, with the spare capacity it ends with. *)
Lemma reserve_record_exact (rb : readBio.t) :
  let cur := readBio.buf rb in
  let dstlen := if scap cur <? slen cur + SSLRecordSize then SSLRecordSize
                else len (spare cur) in
  exists rb1,
    reserve_record rb = Returns (readBio.buf rb1) rb1 /\
    elems (readBio.buf rb1) = elems cur /\
    len (spare (readBio.buf rb1)) = dstlen /\
    readBio.eof rb1 = readBio.eof rb /\
    readBio.release_buffers rb1 = readBio.release_buffers rb /\
    readBio.conn rb1 = readBio.conn rb.
Proof.
  intros cur dstlen. subst dstlen. unfold reserve_record. go_step. fold cur.
  destruct (scap cur <? slen cur + SSLRecordSize) eqn:E.
  - pose proof (copy_into_make (elems cur) (slen cur + SSLRecordSize)) as Hcopy.
    change (len (elems cur)) with (slen cur) in Hcopy.
    destruct (copy _ _) as [arr k]. cbn [fst] in Hcopy. subst arr.
    eexists. split; [reflexivity|].
    cbn [readBio.buf readBio.set_buf readBio.eof readBio.release_buffers
         readBio.conn elems spare].
    split; [reflexivity|]. split; [|auto].
    rewrite len_spare_make; unfold SSLRecordSize; lia.
  - exists rb. split; [reflexivity|]. auto.
Qed.

(** X10. [ReadFromConnOnce] over a well-behaved connection never lowers
    the capacity of the buffer and raises it only when less than a record of
    spare room is left: afterwards the capacity is the larger of what it was
    and the old length plus 16384.  A buffer that is empty with at least a
    record of capacity is therefore refilled in place. *)
Theorem ReadFromConnOnce_capacity (rb : readBio.t) (c : Conn) :
  readBio.conn rb = Some c -> reader_ok c ->
  exists r rb',
    ReadFromConnOnce rb = Returns r rb' /\
    slen (readBio.buf rb') = slen (readBio.buf rb) + fst r /\
    scap (readBio.buf rb')
    = Z.max (scap (readBio.buf rb)) (slen (readBio.buf rb) + SSLRecordSize).
Proof.
  intros Hc Hok.
  destruct (reserve_record_exact rb) as (rb1 & H1 & He1 & Hd & _ & _ & Hc1).
  rewrite Hc in Hc1.
  destruct (rb_conn_Read_tail_spec rb1 c Hc1 Hok)
    as (rb2 & H2 & Hb2 & Hn & _).
  set (chunk := fst (on_read c (length (read_log c))
                       (len (spare (readBio.buf rb1))))) in *.
  assert (Hsl : slen (readBio.buf rb1) = len (elems (readBio.buf rb1))) by reflexivity.
  destruct (take_in_spec rb2 (readBio.buf rb1) _ _ _ Hb2 Hsl)
    as (rb3 & H3 & He3 & Hs3 & _).
  eexists _, rb3. split.
  { unfold ReadFromConnOnce. go_step. rewrite H1, H2, H3. reflexivity. }
  cbn [fst]. unfold scap, slen. rewrite He3, Hs3, He1, len_app.
  split; [reflexivity|].
  assert (Hrest : len (skipn (length chunk) (spare (readBio.buf rb1)))
                  = len (spare (readBio.buf rb1)) - len chunk).
  { unfold len in *. rewrite length_skipn. lia. }
  rewrite Hrest, Hd. unfold scap, slen.
  destruct (Z.ltb_spec (len (elems (readBio.buf rb)) + len (spare (readBio.buf rb)))
              (len (elems (readBio.buf rb)) + SSLRecordSize)); lia.
Qed.

Lemma ReadFromConnOnce_capacity_witness :
  let c := scripted_conn 0 None [[x01; x02]] in
  let rb := {| readBio.buf := nil_slice; readBio.eof := false;
               readBio.release_buffers := false; readBio.conn := Some c |} in
  reader_ok c /\
  exists r rb',
    ReadFromConnOnce rb = Returns r rb' /\
    scap (readBio.buf rb') = 16384.
Proof.
  intros c rb.
  assert (Hok : reader_ok c) by apply scripted_conn_reader_ok.
  split; [exact Hok|].
  destruct (ReadFromConnOnce_capacity rb c eq_refl Hok) as (r & rb' & H & _ & Hcap).
  exists r, rb'. split; [exact H | exact Hcap].
Defined.

(** ** Faults of [ReadFromConnOnce] *)

(** X11. [ReadFromConnOnce] panics when the adapter has no connection, and
    when the connection claims to have read more bytes than its destination
    holds (which is the spare capacity reserved: 16384, or the spare capacity
    there was if that was enough).  In both cases the bytes buffered so far
    and the [eof] flag are as before; in the second the one read has been
    made. *)
Theorem ReadFromConnOnce_faults (rb : readBio.t) :
  (readBio.conn rb = None ->
     exists msg rb',
       ReadFromConnOnce rb = Panics msg rb' /\
       elems (readBio.buf rb') = elems (readBio.buf rb) /\
       readBio.eof rb' = readBio.eof rb) /\
  (forall c,
      readBio.conn rb = Some c ->
      let cur := readBio.buf rb in
      let dstlen := if scap cur <? slen cur + SSLRecordSize then SSLRecordSize
                    else len (spare cur) in
      dstlen < len (fst (on_read c (length (read_log c)) dstlen)) ->
      exists msg rb' c',
        ReadFromConnOnce rb = Panics msg rb' /\
        elems (readBio.buf rb') = elems cur /\
        readBio.eof rb' = readBio.eof rb /\
        readBio.conn rb' = Some c' /\
        read_log c' = read_log c ++ [dstlen]).
Proof.
  destruct (reserve_record_exact rb) as (rb1 & H1 & He1 & Hd & Heof1 & _ & Hc1).
  split.
  - intros Hc. rewrite Hc in Hc1.
    exists "invalid memory address or nil pointer dereference"%string, rb1.
    split; [|auto].
    unfold ReadFromConnOnce, rb_conn_Read_tail. go_step. rewrite H1, Hc1.
    reflexivity.
  - intros c Hc cur dstlen Hlong. fold cur in He1, Hd. fold dstlen in Hd.
    rewrite Hc in Hc1.
    unfold ReadFromConnOnce, rb_conn_Read_tail, Conn_Read. go_step.
    rewrite H1, Hc1, Hd.
    set (chunk := fst (on_read c (length (read_log c)) dstlen)) in *.
    cbn [fst snd]. unfold take_in.
    assert (Hd0 : 0 <= dstlen) by (rewrite <- Hd; apply len_nonneg).
    replace (0 <? len chunk) with true by (symmetry; apply Z.ltb_lt; lia).
    go_step.
    cbn [readBio.buf readBio.set_buf readBio.set_conn].
    replace (slen (readBio.buf rb1) =?
             slen {| elems := elems (readBio.buf rb1);
                     spare := store (spare (readBio.buf rb1)) chunk |})
      with true by (symmetry; apply Z.eqb_refl).
    cbn [negb]. cbn [readBio.buf readBio.set_buf readBio.set_conn].
    unfold reslice, scap, slen. cbn [elems spare]. go_step.
    replace (len (store (spare (readBio.buf rb1)) chunk)) with dstlen
      by (unfold len in *; rewrite length_store; exact (eq_sym Hd)).
    replace ((0 <=? len (elems (readBio.buf rb1)) + len chunk) &&
             (len (elems (readBio.buf rb1)) + len chunk
              <=? len (elems (readBio.buf rb1)) + dstlen)) with false
      by (symmetry; apply andb_false_iff; right; apply Z.leb_gt; lia).
    eexists _, _, _. split; [reflexivity|]. cbn. auto.
Qed.

Lemma ReadFromConnOnce_faults_witness :
  let rb := {| readBio.buf := nil_slice; readBio.eof := false;
               readBio.release_buffers := false;
               readBio.conn := Some overfilling_conn |} in
  exists msg rb' c',
    ReadFromConnOnce rb = Panics msg rb' /\
    elems (readBio.buf rb') = [] /\
    readBio.eof rb' = false /\
    readBio.conn rb' = Some c' /\
    read_log c' = [SSLRecordSize].
Proof.
  intros rb. destruct (ReadFromConnOnce_faults rb) as (_ & H).
  apply (H overfilling_conn eq_refl).
  change (SSLRecordSize < len (repeat x00 (Z.to_nat SSLRecordSize + 1))).
  unfold len. rewrite repeat_length. unfold SSLRecordSize. lia.
Defined.

(** ** A read request during [ReadFromConnOnce] *)

(** The second critical section after a request has taken bytes from the
    front of the buffer: the bytes the connection stored lie [length junk]
    cells beyond the end of the buffer and are slid back to it. *)
Lemma take_in_slide (rb : readBio.t) (dst_slice : slice)
      (e junk chunk rest : list byte) :
  readBio.buf rb = {| elems := e; spare := junk ++ chunk ++ rest |} ->
  slen dst_slice = len e + len junk ->
  exists rb3,
    take_in dst_slice (len chunk) rb = Returns tt rb3 /\
    elems (readBio.buf rb3) = e ++ chunk /\
    readBio.eof rb3 = readBio.eof rb /\
    readBio.release_buffers rb3 = readBio.release_buffers rb /\
    readBio.conn rb3 = readBio.conn rb.
Proof.
  intros Hbuf Hd.
  destruct junk as [|x junk].
  { cbn [app] in Hbuf. cbn in Hd. rewrite Z.add_0_r in Hd.
    destruct (take_in_spec rb dst_slice e chunk rest Hbuf Hd)
      as (rb3 & H & He & _ & Hr). exists rb3. auto. }
  set (j := x :: junk) in *.
  assert (Hj : 0 < len j) by (subst j; unfold len; cbn [length]; lia).
  unfold take_in.
  destruct (0 <? len chunk) eqn:E.
  2:{ apply Z.ltb_ge in E. pose proof (len_nonneg chunk).
      assert (chunk = []) by (apply len_zero_nil; lia). subst chunk.
      exists rb. split; [reflexivity|]. rewrite Hbuf, app_nil_r. cbn. auto. }
  apply Z.ltb_lt in E. go_step. rewrite Hbuf.
  replace (slen dst_slice =? slen {| elems := e; spare := j ++ chunk ++ rest |})
    with false
    by (symmetry; apply Z.eqb_neq; rewrite Hd; unfold slen; cbn [elems]; lia).
  cbn [negb]. unfold spare_range, scap, slen. cbn [elems spare]. go_step.
  pose proof (len_nonneg e). pose proof (len_nonneg rest).
  replace ((0 <=? len e) && (len e <=? len e + len chunk) &&
           (len e + len chunk <=? len e + len (j ++ chunk ++ rest))) with true.
  2:{ symmetry. rewrite !andb_true_iff, !len_app.
      repeat split; apply Z.leb_le; lia. }
  replace (Z.to_nat (len e + len chunk - len e)) with (length chunk)
    by (unfold len; lia).
  replace (Z.to_nat (len (elems dst_slice) - len e)) with (length j)
    by (unfold slen in Hd; rewrite Hd; unfold len; lia).
  rewrite skipn_length_app.
  set (target := firstn (length chunk) (j ++ chunk ++ rest)).
  assert (Ht : length target = length chunk).
  { subst target. rewrite length_firstn, !length_app. lia. }
  unfold copy. rewrite Ht, length_app.
  replace (Nat.min (length chunk) (length chunk + length rest))
    with (length chunk) by lia.
  rewrite firstn_length_app.
  rewrite (skipn_all2 target) by lia. rewrite app_nil_r.
  cbn [readBio.buf readBio.set_buf].
  unfold reslice, scap, slen. cbn [elems spare]. go_step.
  replace ((0 <=? len e + len chunk) &&
           (len e + len chunk
            <=? len e + len (chunk ++ skipn (length chunk) (j ++ chunk ++ rest))))
    with true.
  2:{ symmetry. rewrite andb_true_iff, len_app.
      pose proof (len_nonneg (skipn (length chunk) (j ++ chunk ++ rest))).
      split; apply Z.leb_le; lia. }
  replace (Z.to_nat (len e + len chunk)) with (length (e ++ chunk))
    by (rewrite length_app; unfold len; lia).
  rewrite app_assoc, firstn_length_app.
  eexists. split; [reflexivity|]. cbn. auto.
Qed.

Lemma slice_eta (s : slice) : s = {| elems := elems s; spare := [] ++ spare s |}.
Proof. destruct s; reflexivity. Qed.

Lemma slice_eta_nil (s : slice) :
  elems s = [] -> s = {| elems := []; spare := [] ++ spare s |}.
Proof. destruct s; cbn; intros ->; reflexivity. Qed.

(** What a read request does to an adapter that does not release its
    buffer: it takes a prefix of the elements and leaves their cells, and
    everything behind them, in the backing array. *)
Lemma request_shape (data : cptr) (size : Z) (b : BIO readBio.t) (rb : readBio.t) :
  bio_data b = Some rb -> is_C_int size ->
  readBio.release_buffers rb = false ->
  exists rc dst b' rb' e junk,
    go_read_bio_read data size b = (rc, dst, b') /\
    bio_data b' = Some rb' /\
    readBio.buf rb' = {| elems := e; spare := junk ++ spare (readBio.buf rb) |} /\
    firstn (Z.to_nat rc) dst ++ e = elems (readBio.buf rb) /\
    len e + len junk = slen (readBio.buf rb) /\
    readBio.eof rb' = readBio.eof rb /\
    readBio.release_buffers rb' = readBio.release_buffers rb /\
    readBio.conn rb' = readBio.conn rb.
Proof.
  intros Hb Hsize Hrel.
  assert (Hsame : forall rc b', bio_data b' = Some rb ->
            exists rb' e junk,
              bio_data b' = Some rb' /\
              readBio.buf rb'
              = {| elems := e; spare := junk ++ spare (readBio.buf rb) |} /\
              firstn (Z.to_nat rc) [] ++ e = elems (readBio.buf rb) /\
              len e + len junk = slen (readBio.buf rb) /\
              readBio.eof rb' = readBio.eof rb /\
              readBio.release_buffers rb' = readBio.release_buffers rb /\
              readBio.conn rb' = readBio.conn rb).
  { intros rc b' Hb'. exists rb, (elems (readBio.buf rb)), [].
    split; [exact Hb'|]. split; [apply slice_eta|].
    rewrite firstn_nil. cbn. unfold slen. repeat split; auto; lia. }
  destruct (Z.lt_ge_cases size 0) as [Hs|Hs].
  { rewrite (go_read_bio_read_eq _ _ _ _ _
               (read_refused data size b (or_intror Hs))).
    replace (nonCopyCString data size) with (@nil byte).
    2:{ unfold nonCopyCString, nonCopyGoBytes.
        replace (Z.to_nat size) with 0%nat by lia. symmetry. apply firstn_0. }
    destruct (Hsame (-1) b Hb) as (rb' & e & junk & H).
    exists (-1), [], b, rb', e, junk. split; [reflexivity | exact H]. }
  destruct (Z.eq_dec (slen (readBio.buf rb)) 0) as [Hl|Hl].
  { assert (He0 : elems (readBio.buf rb) = []) by (apply len_zero_nil; exact Hl).
    destruct (readBio.eof rb) eqn:He.
    - rewrite (go_read_bio_read_eq _ _ _ _ _
                 (read_empty_eof data size b rb Hb Hs Hl He)).
      eexists 0, _, _, rb, [], []. split; [reflexivity|].
      split; [reflexivity|]. split; [apply slice_eta_nil; exact He0|].
      rewrite He0, Hl. cbn. auto.
    - rewrite (go_read_bio_read_eq _ _ _ _ _
                 (read_empty_retry data size b rb Hb Hs Hl He)).
      eexists (-1), _, _, rb, [], []. split; [reflexivity|].
      split; [reflexivity|]. split; [apply slice_eta_nil; exact He0|].
      rewrite He0, Hl. cbn. auto. }
  assert (Hquery : size = 0 \/ data = NULL ->
            exists rc dst b' rb' e junk,
              go_read_bio_read data size b = (rc, dst, b') /\
              bio_data b' = Some rb' /\
              readBio.buf rb'
              = {| elems := e; spare := junk ++ spare (readBio.buf rb) |} /\
              firstn (Z.to_nat rc) dst ++ e = elems (readBio.buf rb) /\
              len e + len junk = slen (readBio.buf rb) /\
              readBio.eof rb' = readBio.eof rb /\
              readBio.release_buffers rb' = readBio.release_buffers rb /\
              readBio.conn rb' = readBio.conn rb).
  { intros Hq.
    rewrite (go_read_bio_read_eq _ _ _ _ _ (read_query data size b rb Hb Hs Hl Hq)).
    rewrite (nonCopyCString_nothing data size Hq).
    destruct (Hsame (C_int (slen (readBio.buf rb)))
                (set_data (Some rb) (cleared b)) eq_refl)
      as (rb' & e & junk & H).
    eexists _, _, _, rb', e, junk. split; [reflexivity | exact H]. }
  destruct (Z.eq_dec size 0) as [Hz|Hz]; [apply Hquery; auto|].
  destruct data as [|mem]; [apply Hquery; auto|]. clear Hquery Hsame.
  pose proof (read_copy_exact size b rb mem Hb Hs Hl Hz) as H.
  cbv zeta in H. rewrite Hrel in H. cbn [andb] in H.
  rewrite (go_read_bio_read_eq _ _ _ _ _ H).
  set (e := elems (readBio.buf rb)) in *.
  set (n := Nat.min (length (nonCopyCString (Ptr mem) size)) (length e)) in *.
  assert (Hn : Z.of_nat n <= size).
  { subst n. unfold nonCopyCString, nonCopyGoBytes. rewrite length_firstn. lia. }
  rewrite C_int_small by (unfold is_C_int, INT_MIN, INT_MAX in *; lia).
  eexists _, _, _, _, (skipn n e), (skipn (length e - n) e).
  split; [reflexivity|]. split; [reflexivity|]. split; [reflexivity|].
  assert (Hlen : length (firstn n e) = n) by (rewrite length_firstn; subst n; lia).
  split.
  { rewrite Nat2Z.id. rewrite <- Hlen at 1. rewrite firstn_length_app. apply firstn_skipn. }
  split; [|cbn; auto].
  unfold slen, len. fold e. rewrite !length_skipn. subst n. lia.
Qed.

(** X12. A read request that runs while [ReadFromConnOnce] is between its
    read and its second critical section does not disturb the stream, on
    an adapter that keeps its buffer: the bytes just read are slid back to
    the end of what the request left, so the bytes the request took followed
    by the bytes buffered afterwards are the bytes buffered before followed
    by the bytes read. *)
Theorem request_during_fill (data : cptr) (size : Z) (b : BIO readBio.t)
        (rb : readBio.t) (c : Conn) :
  bio_data b = Some rb -> readBio.conn rb = Some c -> reader_ok c ->
  readBio.release_buffers rb = false -> is_C_int size ->
  exists n err rc dst b' chunk,
    ReadFromConnOnce_overlapped data size b = Returns (n, err, (rc, dst)) b' /\
    n = len chunk /\
    rreceived b' = rreceived b ++ chunk /\
    firstn (Z.to_nat rc) dst ++ rpending b' = rpending b ++ chunk.
Proof.
  intros Hb Hc Hok Hrel Hsize.
  destruct (reserve_record_spec rb) as (rb1 & H1 & He1 & _ & _ & _ & Hrel1 & Hc1).
  rewrite Hc in Hc1. rewrite Hrel in Hrel1.
  destruct (rb_conn_Read_tail_spec rb1 c Hc1 Hok)
    as (rb2 & H2 & Hb2 & _ & _ & Hrel2 & Hc2).
  rewrite Hrel1 in Hrel2.
  set (chunk := fst (on_read c (length (read_log c))
                       (len (spare (readBio.buf rb1))))) in *.
  set (err := snd (on_read c (length (read_log c))
                     (len (spare (readBio.buf rb1))))) in *.
  set (b2 := set_data (Some rb2) (set_data (Some rb1) b)).
  destruct (request_shape data size b2 rb2 eq_refl Hsize Hrel2)
    as (rc & dst & b3 & rb3 & e & junk & H3 & Hb3 & Hbuf3 & Hfifo & Hlen & _ & _ & Hc3).
  rewrite Hb2 in Hbuf3, Hfifo, Hlen. cbn [elems spare] in Hbuf3, Hfifo.
  unfold slen in Hlen. cbn [elems] in Hlen.
  assert (Hd : slen (readBio.buf rb1) = len e + len junk) by (rewrite Hlen; reflexivity).
  destruct (take_in_slide rb3 (readBio.buf rb1) e junk chunk _ Hbuf3 Hd)
    as (rb4 & H4 & He4 & _ & _ & Hc4).
  exists (len chunk), err, rc, dst, (set_data (Some rb4) b3), chunk.
  split.
  { unfold ReadFromConnOnce_overlapped, on_ptr, call. go_step.
    rewrite Hb, H1. cbn [bio_data set_data]. rewrite H2.
    fold b2. rewrite H3, Hb3, H4. reflexivity. }
  split; [reflexivity|].
  unfold rreceived, rpending. cbn [bio_data set_data].
  rewrite Hb, Hc, Hc4, Hc3, Hc2, He4. cbn [received]. split; [reflexivity|].
  rewrite app_assoc, Hfifo, He1. reflexivity.
Qed.

Lemma request_during_fill_witness :
  let c := scripted_conn 0 None [[x04; x05]] in
  let b := read_bio_over [x01; x02; x03] false (Some c) in
  reader_ok c /\ is_C_int 2 /\
  exists err dst b',
    ReadFromConnOnce_overlapped (Ptr [x00; x00]) 2 b
    = Returns (2, err, (2, dst)) b' /\
    firstn 2 dst ++ rpending b' = [x01; x02; x03; x04; x05].
Proof.
  intros c b.
  assert (Hok : reader_ok c) by apply scripted_conn_reader_ok.
  assert (Hsize : is_C_int 2) by (unfold is_C_int, INT_MIN, INT_MAX; lia).
  split; [exact Hok|]. split; [exact Hsize|].
  destruct (request_during_fill (Ptr [x00; x00]) 2 b _ c eq_refl eq_refl Hok
              eq_refl Hsize)
    as (n & err & rc & dst & b' & chunk & H & _ & Hr & Hf).
  assert (Hret : returned (ReadFromConnOnce_overlapped (Ptr [x00; x00]) 2 b)
                 = Some (2, None, (2, [x01; x02])))
    by (vm_compute; reflexivity).
  assert (Hrec : rreceived (final (ReadFromConnOnce_overlapped (Ptr [x00; x00]) 2 b))
                 = [x04; x05])
    by (vm_compute; reflexivity).
  rewrite H in Hret, Hrec. cbn [returned final] in Hret, Hrec.
  assert (Hv : n = 2 /\ rc = 2) by (inversion Hret; split; reflexivity).
  destruct Hv as (-> & ->). rewrite Hrec in Hr. cbn in Hr. subst chunk.
  exists err, dst, b'. split; [exact H | exact Hf].
Defined.

(** X13. On an adapter made with [release_buffers] the same overlap loses
    bytes: when the request takes every buffered byte the buffer becomes
    the nil slice, and the second critical section of [ReadFromConnOnce],
    finding the buffer shorter than it left it, reslices the nil slice up
    to the count read and panics.  The bytes the connection delivered are
    then in the connection's record of what it gave but not in the
    buffer. *)
Theorem request_during_fill_released (mem : list byte) (size : Z)
        (b : BIO readBio.t) (rb : readBio.t) (c : Conn) :
  bio_data b = Some rb -> readBio.conn rb = Some c -> reader_ok c ->
  readBio.release_buffers rb = true ->
  len mem = size ->
  rpending b <> [] -> len (rpending b) <= size ->
  let cur := readBio.buf rb in
  let dstlen := if scap cur <? slen cur + SSLRecordSize then SSLRecordSize
                else len (spare cur) in
  let chunk := fst (on_read c (length (read_log c)) dstlen) in
  chunk <> [] ->
  exists msg b',
    ReadFromConnOnce_overlapped (Ptr mem) size b = Panics msg b' /\
    rreceived b' = rreceived b ++ chunk /\
    rpending b' = [].
Proof.
  intros Hb Hc Hok Hrel Hm Hne Hle cur dstlen chunk Hchunk.
  assert (Hp : rpending b = elems cur) by (unfold rpending; rewrite Hb; reflexivity).
  rewrite Hp in Hne, Hle.
  destruct (reserve_record_exact rb) as (rb1 & H1 & He1 & Hd & _ & Hrel1 & Hc1).
  fold cur in He1, Hd. fold dstlen in Hd.
  rewrite Hc in Hc1. rewrite Hrel in Hrel1.
  destruct (rb_conn_Read_tail_spec rb1 c Hc1 Hok)
    as (rb2 & H2 & Hb2 & Hn & _ & Hrel2 & Hc2).
  rewrite Hd in H2, Hb2, Hn, Hc2. fold chunk in H2, Hb2, Hn, Hc2.
  rewrite Hrel1 in Hrel2. rewrite He1 in Hb2.
  set (b2 := set_data (Some rb2) (set_data (Some rb1) b)).
  assert (Hpos : 0 < len (elems cur)).
  { pose proof (len_nonneg (elems cur)).
    assert (len (elems cur) <> 0) by (intros H0; apply len_zero_nil in H0; contradiction).
    lia. }
  assert (Hl2 : slen (readBio.buf rb2) <> 0).
  { rewrite Hb2. unfold slen. cbn [elems]. lia. }
  assert (Hun : nonCopyCString (Ptr mem) size = mem).
  { unfold nonCopyCString, nonCopyGoBytes. rewrite <- Hm. unfold len.
    rewrite Nat2Z.id. apply firstn_all. }
  pose proof (read_copy_exact size b2 rb2 mem eq_refl ltac:(lia) Hl2 ltac:(lia)) as H3.
  cbv zeta in H3. rewrite Hun, Hrel2, Hb2 in H3. cbn [elems spare andb] in H3.
  replace (Nat.min (length mem) (length (elems cur))) with (length (elems cur)) in H3
    by (unfold len in *; lia).
  rewrite Nat.eqb_refl in H3.
  apply go_read_bio_read_eq in H3.
  assert (Hcpos : 0 < len chunk).
  { pose proof (len_nonneg chunk).
    assert (len chunk <> 0) by (intros H0; apply len_zero_nil in H0; contradiction).
    lia. }
  eexists _, _. split.
  { unfold ReadFromConnOnce_overlapped, on_ptr, call. go_step.
    rewrite Hb, H1. cbn [bio_data set_data]. rewrite H2.
    fold b2. rewrite H3. cbn [bio_data set_data].
    unfold take_in. replace (0 <? len chunk) with true
      by (symmetry; apply Z.ltb_lt; exact Hcpos).
    go_step. cbn [readBio.buf readBio.set_buf].
    replace (slen (readBio.buf rb1) =? slen nil_slice) with false.
    2:{ symmetry. apply Z.eqb_neq. unfold slen. rewrite He1. cbn. lia. }
    cbn [negb]. unfold spare_range. go_step.
    replace ((0 <=? slen nil_slice) && (slen nil_slice <=? slen nil_slice + len chunk) &&
             (slen nil_slice + len chunk <=? scap nil_slice)) with false.
    2:{ symmetry. apply andb_false_iff. right. apply Z.leb_gt. cbn. lia. }
    reflexivity. }
  unfold rreceived, rpending. cbn [bio_data set_data readBio.buf readBio.set_buf
    readBio.conn elems nil_slice].
  rewrite Hb, Hc, Hc2. cbn [received]. split; reflexivity.
Qed.

Lemma request_during_fill_released_witness :
  let c := scripted_conn 0 None [[x04; x05]] in
  let b := read_bio_over [x01; x02; x03] true (Some c) in
  reader_ok c /\
  exists msg b',
    ReadFromConnOnce_overlapped (Ptr [x00; x00; x00]) 3 b = Panics msg b' /\
    rreceived b' = [x04; x05] /\ rpending b' = [].
Proof.
  intros c b.
  assert (Hok : reader_ok c) by apply scripted_conn_reader_ok.
  split; [exact Hok|].
  exact (request_during_fill_released [x00; x00; x00] 3 b _ c eq_refl eq_refl Hok
           eq_refl eq_refl ltac:(discriminate) ltac:(cbn; lia)
           ltac:(discriminate)).
Defined.

(** ** The pending count of the read side *)

(** X14. After any sequence of requests, controls, fills and end-of-stream
    marks on a read adapter over a well-behaved connection, the pending
    count the control reports is the number of bytes the connection has
    delivered less the number the requests have handed to the engine (as a
    [C.long]), and asking for it changes nothing. *)
Theorem read_pending_accounting (cs : list rcall) (b : BIO readBio.t)
        (D : list byte) :
  rgood b -> rreceived b = D ++ rpending b ->
  exists rs b',
    rrun cs b = Returns rs b' /\
    go_read_bio_ctrl BIO_CTRL_PENDING b'
    = (C_long (len (rreceived b') - len D - len (drained rs)), b').
Proof.
  intros Hg Hd.
  destruct (rrun_invariant cs b D Hg Hd) as (rs & b' & Hrun & Hg' & Hinv).
  exists rs, b'. split; [exact Hrun|].
  destruct (rgood_inv b' Hg') as (rb & c & Hb & _ & _ & _ & Hp).
  unfold go_read_bio_ctrl, go_read_bio_ctrl_body, readBioPending, loadReadPtr.
  go_step.
  change (BIO_CTRL_PENDING =? BIO_CTRL_PENDING) with true. cbv beta iota.
  rewrite Hb. unfold slen. rewrite <- Hp, Hinv, !len_app.
  f_equal. f_equal. lia.
Qed.

Lemma read_pending_accounting_witness :
  let c := scripted_conn 0 None [[x01; x02; x03]] in
  let b := new_read_bio false (Some c) in
  let cs := [Fill; Request (Ptr [x00; x00]) 2] in
  rgood b /\
  exists rs b',
    rrun cs b = Returns rs b' /\
    go_read_bio_ctrl BIO_CTRL_PENDING b'
    = (C_long (len (rreceived b') - len (@nil byte) - len (drained rs)), b').
Proof.
  intros c b cs.
  assert (Hg : rgood b).
  { eexists _, c. split; [reflexivity|]. split; [reflexivity|].
    apply scripted_conn_reader_ok. }
  split; [exact Hg|].
  exact (read_pending_accounting cs b [] Hg eq_refl).
Defined.

(** ** Writing through the facade *)

(** X15. [Write] of the facade hands a non-empty buffer to the engine
    once, with its length converted to a [C.int], and returns the engine's
    answer as the count, also when that is negative; it reports an error
    exactly when the answer is not the length of the buffer.  It does not
    call the engine for an empty buffer.  A buffer longer than the largest
    [C.int] can therefore never be written without an error. *)
Theorem anyBio_Write_contract (X_BIO_write : list byte -> Z -> Z)
        (buf : list byte) :
  let '(written, err) := anyBio_Write X_BIO_write buf in
  (buf = [] -> written = 0 /\ err = None) /\
  (buf <> [] ->
     written = X_BIO_write buf (C_int (len buf)) /\
     (err = None <-> written = len buf)) /\
  (INT_MAX < len buf -> is_C_int (X_BIO_write buf (C_int (len buf))) ->
     err <> None).
Proof.
  unfold anyBio_Write.
  destruct (len buf =? 0) eqn:E.
  - apply Z.eqb_eq in E. pose proof (len_zero_nil _ E) as Hnil.
    split; [auto|]. split; [intros Hne; contradiction|].
    intros Hbig. unfold INT_MAX in Hbig. lia.
  - apply Z.eqb_neq in E. cbv zeta.
    destruct (X_BIO_write buf (C_int (len buf)) =? len buf) eqn:En; cbn [negb].
    + apply Z.eqb_eq in En.
      split; [intros Hnil; subst buf; contradiction E; reflexivity|].
      split; [intros _; split; [reflexivity | split; auto]|].
      intros Hbig [_ Hhi]. rewrite En in Hhi. lia.
    + apply Z.eqb_neq in En.
      split; [intros Hnil; subst buf; contradiction E; reflexivity|].
      split; [intros _; split; [reflexivity|]|].
      * split; [discriminate | intros H; contradiction].
      * intros _ _. discriminate.
Qed.

Lemma anyBio_Write_contract_witness :
  INT_MAX < len two_gib /\
  snd (anyBio_Write (fun _ size => size) two_gib) <> None.
Proof.
  assert (Hbig : INT_MAX < len two_gib).
  { unfold len, two_gib, INT_MAX. rewrite repeat_length. lia. }
  split; [exact Hbig|].
  pose proof (anyBio_Write_contract (fun _ size => size) two_gib) as H.
  destruct (anyBio_Write (fun _ size => size) two_gib) as [written err].
  destruct H as (_ & _ & H). cbn [snd].
  exact (H Hbig (C_int_range (len two_gib))).
Defined.
